(** * Sprite-sheet tools of orions-chase: a shallow embedding

    Two scripts are modelled, each in a module of its own:
    - [assets/create-sprint-sheet.py] (module [CreateSpriteSheet]): loads the
      PNG files of a directory and pastes them side by side;
    - [assets/sprite-test.py] (module [SpriteTest]): draws numbered tiles and
      pastes them side by side.

    Python integers are [Z], Python strings are [string] (a [str] is held as
    its UTF-8 bytes: byte-wise comparison then orders strings as Python's
    code-point comparison does), exceptions are the [Raise] outcome of
    [result], and the file system and the standard output are an explicit
    [world] threaded through the programs. *)

From Stdlib Require Import ZArith Ascii String DecimalString.
From stdpp Require Import base tactics option list sorting gmap fin_maps strings.

Local Open Scope string_scope.
Local Open Scope Z_scope.

(** ** Outcomes of a Python computation *)

Inductive exn : Type :=
  | IndexError
  | ValueError
  | UnboundLocalError
  | FileNotFoundError
  | NotADirectoryError
  | IsADirectoryError
  | UnidentifiedImageError
  | OSError.

(** [Diverge] is the outcome of a loop that was still running when the fuel
    given to it ran out; only [while True] loops consume fuel. *)
Inductive result (A : Type) : Type :=
  | Ok (a : A)
  | Raise (e : exn)
  | Diverge.
Arguments Ok {A} a.
Arguments Raise {A} e.
Arguments Diverge {A}.

#[global] Instance result_ret : MRet result := @Ok.
#[global] Instance result_bind : MBind result := λ A B f m,
  match m with
  | Ok a => f a
  | Raise e => Raise e
  | Diverge => Diverge
  end.
(** [[f x for x in l]] where [f] may raise: elements are evaluated from left
    to right and the first exception ends the comprehension. *)
Fixpoint comprehension {A B} (f : A → result B) (l : list A) : result (list B) :=
  match l with
  | [] => Ok []
  | x :: l' => y ← f x; ys ← comprehension f l'; Ok (y :: ys)
  end.

(** ** Built-ins on strings and lists *)

(** What is left of [s] behind the prefix [p], if [s] starts with [p]. *)
Fixpoint strip_prefix (p s : string) : option string :=
  match p, s with
  | EmptyString, _ => Some s
  | String a p', String b s' => if Ascii.eqb a b then strip_prefix p' s' else None
  | String _ _, EmptyString => None
  end.

(** [s.startswith(p)] *)
Definition startswith (s p : string) : bool := bool_decide (is_Some (strip_prefix p s)).

(** [s.endswith(suffix)]: some tail of [s] is [suffix], compared byte for
    byte (so case-sensitively). *)
Fixpoint endswith (s suffix : string) : bool :=
  if String.eqb s suffix then true
  else match s with
       | EmptyString => false
       | String _ s' => endswith s' suffix
       end.

(** [str(i)] for an integer. *)
Definition str (i : Z) : string := NilZero.string_of_int (Z.to_int i).

(** [len(l)] *)
Definition len {A} (l : list A) : Z := Z.of_nat (length l).

(** [l[0]] *)
Definition first_item {A} (l : list A) : result A :=
  match l with
  | [] => Raise IndexError
  | x :: _ => Ok x
  end.

(** [enumerate(l)] *)
Fixpoint enumerate_from {A} (start : Z) (l : list A) : list (Z * A) :=
  match l with
  | [] => []
  | x :: l' => (start, x) :: enumerate_from (start + 1) l'
  end.
Definition enumerate {A} (l : list A) : list (Z * A) := enumerate_from 0 l.

(** [sorted(l)] on strings.  Python's sort and this merge sort agree: on a
    total antisymmetric order the sorted arrangement of a list is unique
    (lemma [sorted_unique] below). *)
Definition sorted (l : list string) : list string := merge_sort String.le l.

(** [os.path.join(a, b)] on POSIX, for two components. *)
Definition os_path_join (a b : string) : string :=
  if startswith b "/" then b
  else if String.eqb a "" || endswith a "/" then a +:+ b
  else a +:+ "/" +:+ b.

(** ** Images of the imaging library *)

Inductive Mode : Type := RGB | RGBA.

(** A colour with its four bands; a three-band colour is fully opaque. *)
Definition pixel : Type := Z * Z * Z * Z.
Definition rgb (c : Z * Z * Z) : pixel := (c.1.1, c.1.2, c.2, 255).
Definition transparent : pixel := (0, 0, 0, 0).

(** An image is its mode, its size (width, height) and its pixel data, read
    at column [x] and row [y].  Only the positions inside the size are part of
    the image ([getpixel]); pixel values are read in the mode of the image
    they are pasted into. *)
Record Image : Type := mkImage {
  mode : Mode;
  size : Z * Z;
  data : Z → Z → pixel
}.

Definition width (im : Image) : Z := (size im).1.
Definition height (im : Image) : Z := (size im).2.

Definition inside (sz : Z * Z) (x y : Z) : bool :=
  (0 <=? x) && (x <? sz.1) && (0 <=? y) && (y <? sz.2).

(** [im.getpixel((x, y))] *)
Definition getpixel (im : Image) (xy : Z * Z) : result pixel :=
  if inside (size im) xy.1 xy.2 then Ok (data im xy.1 xy.2)
  else Raise IndexError.

(** [Image.new(mode, size, color)]; a negative width or height is refused. *)
Definition Image_new (m : Mode) (sz : Z * Z) (color : pixel) : result Image :=
  if (sz.1 <? 0) || (sz.2 <? 0) then Raise ValueError
  else Ok {| mode := m; size := sz; data := λ _ _, color |}.

(** [dst.paste(src, box)] without a mask: the pixels of [src] overwrite those
    of [dst] from the corner [box] on; what falls outside [dst] is clipped.
    The method updates [dst] in place; [dst] is returned here.  The four
    bands are copied as they are: that the library sets or drops the alpha
    band of a source of another mode is not modelled, so the properties that
    compare the pixels of a sheet with those of its sources are stated for
    sources whose pixels that conversion keeps ([keeps_pixels]). *)
Definition paste (dst src : Image) (box : Z * Z) : Image :=
  {| mode := mode dst;
     size := size dst;
     data := λ x y,
       if inside (size src) (x - box.1) (y - box.2)
       then data src (x - box.1) (y - box.2)
       else data dst x y |}.

(** [im.crop((x0, y0, x1, y1))]: the rectangle of columns [x0..x1) and rows
    [y0..y1) as an image of its own. *)
Definition crop (im : Image) (box : Z * Z * Z * Z) : Image :=
  let '(x0, y0, x1, y1) := box in
  {| mode := mode im;
     size := (x1 - x0, y1 - y0);
     data := λ x y,
       if inside (size im) (x + x0) (y + y0)
       then data im (x + x0) (y + y0)
       else transparent |}.

(** Two images are pixel-identical: same size, and the same pixel (or the
    same refusal) at every position. *)
Definition pixel_identical (a b : Image) : Prop :=
  size a = size b ∧ ∀ x y, getpixel a (x, y) = getpixel b (x, y).

Definition well_formed (im : Image) : Prop := 0 ≤ width im ∧ 0 ≤ height im.

(** ** The file system and the standard output *)

(** What a file holds: the encoding of an image (PNG is lossless, so decoding
    gives the image back), or something that does not decode. *)
Inductive filedata : Type :=
  | Png (im : Image)
  | NotAnImage.

Inductive node : Type :=
  | File (d : filedata)
  | Directory.

(** The file system maps a path, as the program spells it, to what is there. *)
Record world : Type := World {
  files : gmap string node;
  stdout : list string
}.

(** [os.path.exists(path)] *)
Definition os_path_exists (fs : gmap string node) (path : string) : bool :=
  bool_decide (is_Some (fs !! path)).

Fixpoint has_slash (s : string) : bool :=
  match s with
  | EmptyString => false
  | String c s' => Ascii.eqb c "/"%char || has_slash s'
  end.

(** The name under which [path] is an entry of directory [d], if it is one:
    [path] is [os.path.join(d, name)] for a non-empty [name] without a
    separator.  What lies deeper (in a subdirectory of [d]) is no entry. *)
Definition entry_name (d path : string) : option string :=
  name ← strip_prefix (os_path_join d "") path;
  if String.eqb name "" || has_slash name then None else Some name.

(** [os.listdir(d)]: the names of the entries of [d], files and
    subdirectories alike, in the order the system gives them. *)
Definition os_listdir (fs : gmap string node) (d : string) : result (list string) :=
  match fs !! d with
  | Some Directory => Ok (omap (entry_name d) (map_to_list fs).*1)
  | Some (File _) => Raise NotADirectoryError
  | None => Raise FileNotFoundError
  end.

(** [Image.open(path)] *)
Definition Image_open (fs : gmap string node) (path : string) : result Image :=
  match fs !! path with
  | Some (File (Png im)) => Ok im
  | Some (File NotAnImage) => Raise UnidentifiedImageError
  | Some Directory => Raise IsADirectoryError
  | None => Raise FileNotFoundError
  end.

(** [im.save(path)]: writes the file, replacing the one that is there.  Of
    the ways the library can refuse, only a directory at [path] is modelled:
    the properties of the compositors are stated for what it accepts besides,
    an image of positive size and a [.png] name ([png_name]) in an existing
    directory. *)
Definition save (im : Image) (path : string) (fs : gmap string node)
  : result (gmap string node) :=
  match fs !! path with
  | Some Directory => Raise IsADirectoryError
  | _ => Ok (<[path := File (Png im)]> fs)
  end.


(** ** Programs: state (the world) and exceptions *)

Definition prog (A : Type) : Type := world → result A * world.

#[global] Instance prog_ret : MRet prog := λ A a w, (Ok a, w).
#[global] Instance prog_bind : MBind prog := λ A B f m w,
  match m w with
  | (Ok a, w') => f a w'
  | (Raise e, w') => (Raise e, w')
  | (Diverge, w') => (Diverge, w')
  end.

(** A computation that does not touch the world. *)
Definition lift {A} (r : result A) : prog A := λ w, (r, w).

(** A computation that reads the file system. *)
Definition reading {A} (f : gmap string node → result A) : prog A :=
  λ w, (f (files w), w).

(** A computation that updates the file system; when it raises, the file
    system is as it was. *)
Definition writing (f : gmap string node → result (gmap string node)) : prog unit :=
  λ w, match f (files w) with
       | Ok fs' => (Ok (), World fs' (stdout w))
       | Raise e => (Raise e, w)
       | Diverge => (Diverge, w)
       end.

(** [print(line)] *)
Definition print (line : string) : prog unit :=
  λ w, (Ok (), World (files w) (stdout w ++ [line])).

(** ** [assets/create-sprint-sheet.py] *)

Module CreateSpriteSheet.

(** [load_images(image_dir)] *)
Definition load_images (image_dir : string) : prog (list Image) :=
  names ← reading (λ fs, os_listdir fs image_dir);
  let image_files := filter (λ f, endswith f ".png") (sorted names) in
  reading (λ fs,
    comprehension (λ img, Image_open fs (os_path_join image_dir img)) image_files).

(** The [for index, image in enumerate(images)] loop of
    [create_sprite_sheet]: each image is pasted at [(index * sprite_width, 0)]. *)
Definition paste_all (sprite_width : Z) (images : list Image) (sprite_sheet : Image)
  : Image :=
  fold_left (λ sheet '(index, image), paste sheet image (index * sprite_width, 0))
            (enumerate images) sprite_sheet.

(** [create_sprite_sheet(images, output_path)] *)
Definition create_sprite_sheet (images : list Image) (output_path : string)
  : prog unit :=
  first ← lift (first_item images);
  let '(sprite_width, sprite_height) := size first in
  let sheet_width := sprite_width * len images in
  let sheet_height := sprite_height in
  sprite_sheet ← lift (Image_new RGBA (sheet_width, sheet_height) transparent);
  let sprite_sheet := paste_all sprite_width images sprite_sheet in
  writing (save sprite_sheet output_path).

(** The script's [__main__] block, after [image_dir] was parsed from the
    command line. *)
Definition main (image_dir : string) : prog unit :=
  images ← load_images image_dir;
  match images with
  | _ :: _ =>
      let output_path := os_path_join image_dir "sprite_sheet.png" in
      create_sprite_sheet images output_path;;
      print ("Sprite sheet saved as " +:+ output_path)
  | [] =>
      print "No PNG files found in the directory."
  end.

End CreateSpriteSheet.

(** ** [assets/sprite-test.py] *)

(** What the script asks of the font side of the imaging library.  How a
    font file measures and renders text is the library's business: the
    script is modelled over any such library. *)
Class FontLibrary : Type := {
  Font : Type;
  (** [ImageFont.truetype(path, size)] *)
  truetype : string → Z → result Font;
  (** [ImageFont.load_default()] *)
  load_default : Font;
  (** [draw.textbbox((0, 0), text, font=font)]: (x0, y0, x1, y1) *)
  textbbox : Font → string → Z * Z * Z * Z;
  (** [draw.textsize(text, font=font)]: (width, height) *)
  textsize : Font → string → Z * Z;
  (** [draw.text(xy, text, fill=fill, font=font)] on the image [draw] was
      made for; the image is updated in place and returned here. *)
  draw_text : Image → Z * Z → string → pixel → Font → Image
}.

Module SpriteTest.

Definition possible_paths : list string :=
  [ "/Library/Fonts/Arial.ttf";
    "/System/Library/Fonts/Supplemental/Arial.ttf";
    "/usr/share/fonts/truetype/dejavu/DejaVuSans-Bold.ttf";
    "/usr/share/fonts/truetype/freefont/FreeSansBold.ttf" ].

(** [get_font_path()] *)
Definition get_font_path : prog (option string) :=
  found ← reading (λ fs, Ok (List.find (os_path_exists fs) possible_paths));
  match found with
  | Some path => mret (Some path)
  | None =>
      print "None of the specified font files were found. Using the default PIL font.";;
      mret None
  end.

(** [if font_path:] holds for a string that is not empty. *)
Definition truthy (font_path : option string) : option string :=
  match font_path with
  | Some path => if String.eqb path "" then None else Some path
  | None => None
  end.

Section with_fonts.
Context `{FontLibrary}.

(** The [while True] loop of [create_individual_images], entered with the
    current [font_size] and [font]; it leaves with the size, the font and the
    box measured last. *)
Fixpoint fit_loop (fuel : nat) (font_path : string) (width height : Z)
    (text : string) (font_size : Z) (font : Font)
  : result (Z * Font * (Z * Z * Z * Z)) :=
  match fuel with
  | O => Diverge
  | S fuel' =>
      let text_bbox := textbbox font text in
      let '(text_width, text_height) :=
        (text_bbox.1.2 - text_bbox.1.1.1, text_bbox.2 - text_bbox.1.1.2) in
      if (text_width <=? width) && (text_height <=? height)
      then Ok (font_size, font, text_bbox)
      else
        let font_size := font_size - 10 in
        font ← truetype font_path font_size;
        fit_loop fuel' font_path width height text font_size font
  end.

(** The position at which the label is drawn (lines 44 and 45). *)
Definition text_position (width height text_width text_height : Z)
    (text_bbox : Z * Z * Z * Z) : Z * Z :=
  let text_x := (width - text_width) `div` 2 - text_bbox.1.1.1 in
  let text_y := (height - text_height) `div` 2 - text_bbox.1.1.2 in
  (text_x, text_y).

(** One turn of the [for i in range(1, count + 1)] loop.  The local variable
    [text_bbox] lives across the turns of the loop: it is unbound ([None])
    until the [while] loop assigns it. *)
Definition tile (fuel : nat) (width height : Z) (background_color : Z * Z * Z)
    (font_path : option string) (initial_font_size : Z) (font_color : Z * Z * Z)
    (text_bbox : option (Z * Z * Z * Z)) (i : Z)
  : result (Image * option (Z * Z * Z * Z)) :=
  image ← Image_new RGB (width, height) (rgb background_color);
  match truthy font_path with
  | Some path =>
      let font_size := initial_font_size in
      font ← truetype path font_size;
      let text := str i in
      '(font_size, font, text_bbox) ← fit_loop fuel path width height text font_size font;
      let '(text_width, text_height) :=
        (text_bbox.1.2 - text_bbox.1.1.1, text_bbox.2 - text_bbox.1.1.2) in
      let xy := text_position width height text_width text_height text_bbox in
      Ok (draw_text image xy text (rgb font_color) font, Some text_bbox)
  | None =>
      let font := load_default in
      let text := str i in
      let '(text_width, text_height) := textsize font text in
      match text_bbox with
      | None => Raise UnboundLocalError
      | Some text_bbox =>
          let xy := text_position width height text_width text_height text_bbox in
          Ok (draw_text image xy text (rgb font_color) font, Some text_bbox)
      end
  end.

Fixpoint tiles (fuel : nat) (width height : Z) (background_color : Z * Z * Z)
    (font_path : option string) (initial_font_size : Z) (font_color : Z * Z * Z)
    (indices : list Z) (images : list Image) (text_bbox : option (Z * Z * Z * Z))
  : result (list Image) :=
  match indices with
  | [] => Ok images
  | i :: indices' =>
      '(image, text_bbox) ← tile fuel width height background_color font_path
                                 initial_font_size font_color text_bbox i;
      tiles fuel width height background_color font_path initial_font_size
            font_color indices' (images ++ [image]) text_bbox
  end.

(** [create_individual_images(count, width, height, background_color,
    font_path, initial_font_size, font_color)]; [fuel] bounds the turns of
    each [while] loop. *)
Definition create_individual_images (fuel : nat) (count width height : Z)
    (background_color : Z * Z * Z) (font_path : option string)
    (initial_font_size : Z) (font_color : Z * Z * Z) : result (list Image) :=
  tiles fuel width height background_color font_path initial_font_size
        font_color (seqZ 1 count) [] None.

(** The [for index, image in enumerate(images)] loop of
    [create_sprite_sheet]. *)
Definition paste_all (width : Z) (images : list Image) (sprite_sheet : Image)
  : Image :=
  fold_left (λ sheet '(index, image), paste sheet image (index * width, 0))
            (enumerate images) sprite_sheet.

(** [create_sprite_sheet(images, width, height, output_path)] *)
Definition create_sprite_sheet (images : list Image) (width height : Z)
    (output_path : string) : prog unit :=
  let sprite_sheet_width := len images * width in
  let sprite_sheet_height := height in
  sprite_sheet ← lift (Image_new RGB (sprite_sheet_width, sprite_sheet_height)
                                 (rgb (255, 255, 255)));
  let sprite_sheet := paste_all width images sprite_sheet in
  writing (save sprite_sheet output_path).

(** The script's [__main__] block; [home] is what [os.path.expanduser("~")]
    gives. *)
Definition main (home : string) (fuel : nat) : prog unit :=
  let '(width, height) := (276, 315) in
  let background_color := (255, 255, 255) in
  let font_size := 250 in
  let font_color := (0, 0, 0) in
  font_path ← get_font_path;
  let user_directory := home in
  let output_path := os_path_join user_directory "sprite_sheet.png" in
  images ← lift (create_individual_images fuel 8 width height background_color
                                          font_path font_size font_color);
  create_sprite_sheet images width height output_path.

End with_fonts.
End SpriteTest.

(** * Vocabulary of the properties *)

(** The paste loop of either script, started at index [k]. *)
Definition paste_from (w k : Z) (images : list Image) (sheet : Image) : Image :=
  fold_left (λ sheet '(index, image), paste sheet image (index * w, 0))
            (enumerate_from k images) sheet.

(** [name] is an entry of directory [d]: a single path component under
    which the file system holds something. *)
Definition is_entry (fs : gmap string node) (d name : string) : Prop :=
  name ≠ "" ∧ has_slash name = false ∧ is_Some (fs !! os_path_join d name).

(** The names [load_images] opens, in the order it opens them. *)
Definition image_files (names : list string) : list string :=
  sorted (filter (λ f, endswith f ".png") names).

(** The sheet the directory tool composes from a non-empty sequence. *)
Definition composed (first : Image) (rest : list Image) : Image :=
  paste_from (width first) 0 (first :: rest)
    (mkImage RGBA (width first * len (first :: rest), height first)
             (λ _ _, transparent)).

(** The boxes [create_sprite_sheet] passes to [paste], in the order of the
    calls. *)
Definition paste_boxes (images : list Image) : list (Z * Z) :=
  match images with
  | [] => []
  | first :: _ => (λ '(index, _), (index * (size first).1, 0)) <$> enumerate images
  end.

(** The sheet the synthetic tool composes. *)
Definition composed_tiles (images : list Image) (w h : Z) : Image :=
  paste_from w 0 images
    (mkImage RGB (len images * w, h) (λ _ _, rgb (255, 255, 255))).

(** The test that ends the size-fit loop (line 37). *)
Definition fits (width height : Z) (text_bbox : Z * Z * Z * Z) : bool :=
  (text_bbox.1.2 - text_bbox.1.1.1 <=? width)
  && (text_bbox.2 - text_bbox.1.1.2 <=? height).

(** A file name under which [Image.save] stores a PNG file: a single path
    component that ends in [.png] and does not start with a dot, so that
    [.png] is its extension. *)
Definition png_name (name : string) : bool :=
  negb (has_slash name) && negb (startswith name ".") && endswith name ".png".

(** An image all of whose pixels are fully opaque. *)
Definition opaque (im : Image) : Prop :=
  ∀ x y, inside (size im) x y = true → (data im x y).2 = 255.

(** The pixels of [im] are kept when it is pasted into a sheet of mode [m]:
    it has that mode, or it is opaque, so that setting the alpha band (RGB
    into RGBA) or dropping it (RGBA into RGB) changes no pixel.  For an RGBA
    sheet this only asks that a three-band image is opaque, as it is by the
    convention of [pixel]. *)
Definition keeps_pixels (m : Mode) (im : Image) : Prop := mode im = m ∨ opaque im.

(** The tile drawn for index [i] when a font path is given. *)
Definition drawn_tile `{FontLibrary} (fuel : nat) (width height : Z)
    (background_color : Z * Z * Z)
    (path : string) (initial_font_size : Z) (font_color : Z * Z * Z) (i : Z)
    (image : Image) : Prop :=
  ∃ font0 font_size font text_bbox,
    truetype path initial_font_size = Ok font0
    ∧ SpriteTest.fit_loop fuel path width height (str i) initial_font_size font0
      = Ok (font_size, font, text_bbox)
    ∧ image
      = draw_text (mkImage RGB (width, height) (λ _ _, rgb background_color))
          (SpriteTest.text_position width height (text_bbox.1.2 - text_bbox.1.1.1)
                         (text_bbox.2 - text_bbox.1.1.2) text_bbox)
          (str i) (rgb font_color) font.

(** ** Concrete inputs *)

(** A small font library to run the synthetic tool on: a font is its
    nominal size; font files end in [.ttf] and load at positive sizes; a
    glyph is 6/5 of the size wide and its box starts a fifth of the size
    below the origin; drawing fills the box of the text. *)
Definition model_fonts : FontLibrary := {|
  Font := Z;
  truetype path font_size :=
    if endswith path ".ttf"
    then if 0 <? font_size then Ok font_size else Raise ValueError
    else Raise OSError;
  load_default := 10;
  textbbox font text :=
    (0, font `div` 5, 6 * font `div` 5 * Z.of_nat (String.length text), font);
  textsize font text := (6 * Z.of_nat (String.length text), 11);
  draw_text image xy text fill font :=
    mkImage (mode image) (size image)
      (λ x y,
         if inside (6 * font `div` 5 * Z.of_nat (String.length text),
                    font - font `div` 5)
                   (x - xy.1) (y - xy.2 - font `div` 5)
         then fill else data image x y)
|}.

Definition tile_a : Image := mkImage RGBA (2, 3) (λ x y, (10, x, y, 255)).
Definition tile_b : Image := mkImage RGBA (2, 3) (λ x y, (20, x, y, 255)).
Definition tile_wide : Image := mkImage RGBA (5, 7) (λ x y, (30, x, y, 255)).

(** A directory [imgs] with two PNG files, a file with an upper-case
    extension, a text file, and a subdirectory holding a PNG file. *)
Definition example_files : gmap string node :=
  <["imgs" := Directory]>
  (<["imgs/b.png" := File (Png tile_b)]>
  (<["imgs/a.png" := File (Png tile_a)]>
  (<["imgs/C.PNG" := File (Png tile_wide)]>
  (<["imgs/readme.txt" := File NotAnImage]>
  (<["imgs/sub" := Directory]>
  (<["imgs/sub/z.png" := File (Png tile_wide)]>
  (<["docs" := Directory]>
  (<["docs/notes.txt" := File NotAnImage]>
  (<["docs/scan.PNG" := File (Png tile_a)]> ∅))))))))).

Definition example_world : world := World example_files [].

(** The same directory once a sheet has been written into it. *)
Definition rerun_world : world :=
  World (<["imgs/sprite_sheet.png" := File (Png tile_wide)]> example_files) [].

(** A directory [pics] in which, of three names ending in [.png], the
    second is a text file and the third a subdirectory. *)
Definition broken_world : world :=
  World (<["pics" := Directory]>
         (<["pics/a.png" := File (Png tile_a)]>
         (<["pics/b.png" := File NotAnImage]>
         (<["pics/c.png" := Directory]> ∅)))) [].

(** A file system in which the third of the probed font files and the home
    directory exist. *)
Definition font_world : world :=
  World (<["/home/user" := Directory]>
         {["/usr/share/fonts/truetype/dejavu/DejaVuSans-Bold.ttf" := File NotAnImage]})
        [].

(** A font library whose fonts load at every size and do not scale: the box
    of a text is 8 wide for each character and 16 high whatever the size. *)
Definition fixed_fonts : FontLibrary := {|
  Font := Z;
  truetype path font_size := Ok font_size;
  load_default := 10;
  textbbox font text := (0, 0, 8 * Z.of_nat (String.length text), 16);
  textsize font text := (8 * Z.of_nat (String.length text), 16);
  draw_text image xy text fill font := image
|}.

(** * Properties *)

(** ** The paste loop *)

Lemma paste_from_cons w k im images sheet :
  paste_from w k (im :: images) sheet
  = paste_from w (k + 1) images (paste sheet im (k * w, 0)).
Proof. reflexivity. Qed.

Lemma paste_from_size w images : ∀ k sheet,
  size (paste_from w k images sheet) = size sheet.
Proof.
  induction images as [|im images IH]; intros k sheet; [done|].
  rewrite paste_from_cons, IH. done.
Qed.

Lemma paste_from_mode w images : ∀ k sheet,
  mode (paste_from w k images sheet) = mode sheet.
Proof.
  induction images as [|im images IH]; intros k sheet; [done|].
  rewrite paste_from_cons, IH. done.
Qed.

Lemma inside_true sz x y :
  inside sz x y = true ↔ 0 ≤ x < sz.1 ∧ 0 ≤ y < sz.2.
Proof. unfold inside. rewrite !andb_true_iff. lia. Qed.

Lemma inside_false_left sz x y : x < 0 → inside sz x y = false.
Proof.
  intros Hx. destruct (inside sz x y) eqn:E; [|done].
  apply inside_true in E. lia.
Qed.

(** Pastes at later indices leave the columns to their left as they are,
    whatever the sizes of the images pasted. *)
Lemma paste_from_left w images : ∀ k sheet x y,
  0 ≤ w → x < k * w →
  data (paste_from w k images sheet) x y = data sheet x y.
Proof.
  induction images as [|im images IH]; intros k sheet x y Hw Hx; [done|].
  rewrite paste_from_cons, IH by lia. simpl.
  rewrite inside_false_left by lia. done.
Qed.

(** In a row of images of one size [(w, h)], the columns of the tile at
    index [k + i] hold image [i]. *)
Lemma paste_from_tile w h images : ∀ k sheet (i : nat) im x y,
  Forall (λ im, size im = (w, h)) images →
  images !! i = Some im →
  0 ≤ w →
  (k + Z.of_nat i) * w ≤ x < (k + Z.of_nat i + 1) * w → 0 ≤ y < h →
  data (paste_from w k images sheet) x y = data im (x - (k + Z.of_nat i) * w) y.
Proof.
  induction images as [|im0 images IH]; intros k sheet i im x y Hall Hi Hw Hx Hy;
    [done|].
  apply Forall_cons in Hall as [Hsz Hall].
  rewrite paste_from_cons. destruct i as [|i]; simplify_eq/=.
  - rewrite paste_from_left by lia. simpl.
    replace (k + Z.of_nat 0) with k in * by lia.
    assert (inside (size im) (x - k * w) (y - 0) = true) as ->.
    { apply inside_true. rewrite Hsz. simpl. lia. }
    f_equal. lia.
  - rewrite (IH (k + 1) _ i im) by (done || lia).
    f_equal. lia.
Qed.

Lemma len_nonneg {A} (l : list A) : 0 ≤ len l.
Proof. unfold len. lia. Qed.

Lemma Image_new_ok m w h color :
  0 ≤ w → 0 ≤ h →
  Image_new m (w, h) color = Ok (mkImage m (w, h) (λ _ _, color)).
Proof.
  intros Hw Hh. unfold Image_new. simpl.
  destruct (Z.ltb_spec w 0); [lia|]. destruct (Z.ltb_spec h 0); [lia|]. done.
Qed.

(** A slice of a row of equally sized tiles is the image pasted there. *)
Lemma slice_identical w h images sheet (i : nat) im :
  Forall (λ im, size im = (w, h)) images →
  images !! i = Some im →
  0 ≤ w →
  size sheet = (len images * w, h) →
  pixel_identical
    (crop (paste_from w 0 images sheet)
          (Z.of_nat i * w, 0, (Z.of_nat i + 1) * w, h)) im.
Proof.
  intros Hall Hi Hw Hsheet.
  assert (size im = (w, h)) as Him.
  { by apply (Forall_lookup_1 (λ im, size im = (w, h)) images i im). }
  assert (i < length images)%nat as Hlt by (by eapply lookup_lt_Some).
  split; simpl.
  { rewrite Him. f_equal; lia. }
  intros x y. unfold getpixel. simpl.
  replace ((Z.of_nat i + 1) * w - Z.of_nat i * w) with w by lia. replace (h - 0) with h by lia.
  rewrite Him.
  destruct (inside (w, h) x y) eqn:Hin; [|done].
  apply inside_true in Hin. simpl in Hin.
  rewrite paste_from_size, Hsheet.
  assert (inside (len images * w, h) (x + Z.of_nat i * w) (y + 0) = true) as ->.
  { apply inside_true. simpl. unfold len. nia. }
  rewrite (paste_from_tile w h images 0 sheet i im) by (done || lia).
  do 2 f_equal; lia.
Qed.

(** ** Strings and paths *)

Lemma string_app_cons c (a b : string) : String c a +:+ b = String c (a +:+ b).
Proof. reflexivity. Qed.

Lemma string_app_nil_r (s : string) : s +:+ "" = s.
Proof.
  induction s as [|c s IH]; [done|]. by rewrite string_app_cons, IH.
Qed.

Lemma string_app_assoc (a b c : string) : (a +:+ b) +:+ c = a +:+ (b +:+ c).
Proof.
  induction a as [|x a IH]; [done|]. by rewrite !string_app_cons, IH.
Qed.

Lemma strip_prefix_Some p s n : strip_prefix p s = Some n ↔ s = p +:+ n.
Proof.
  revert s. induction p as [|a p IH]; intros s; simpl.
  - change ("" +:+ n) with n. split; congruence.
  - rewrite string_app_cons. destruct s as [|b s]; [done|].
    destruct (Ascii.eqb_spec a b) as [->|Hne].
    + rewrite IH. split; congruence.
    + split; [done|]. intros [= ? ?]. done.
Qed.

Lemma endswith_unfold s suffix :
  endswith s suffix
  = String.eqb s suffix
    || match s with EmptyString => false | String _ s' => endswith s' suffix end.
Proof. destruct s; unfold endswith; fold endswith; by destruct (String.eqb _ _). Qed.

Lemma endswith_refl s : endswith s s = true.
Proof. by rewrite endswith_unfold, String.eqb_refl. Qed.

Lemma endswith_app a b : endswith (a +:+ b) b = true.
Proof.
  induction a as [|c a IH]; [apply endswith_refl|].
  rewrite string_app_cons, endswith_unfold, IH. apply orb_true_r.
Qed.

Lemma no_slash_not_absolute n : has_slash n = false → startswith n "/" = false.
Proof.
  destruct n as [|c n]; [done|]. simpl. intros [Hc _]%orb_false_iff.
  unfold startswith, strip_prefix. by rewrite Ascii.eqb_sym, Hc.
Qed.

(** Joining a directory and a relative name puts the name behind the
    directory's prefix. *)
Lemma os_path_join_relative d n :
  startswith n "/" = false → os_path_join d n = os_path_join d "" +:+ n.
Proof.
  intros Hn. unfold os_path_join. rewrite Hn.
  change (startswith "" "/") with false. cbv iota.
  destruct (String.eqb d "" || endswith d "/").
  - by rewrite string_app_nil_r.
  - by rewrite !string_app_assoc.
Qed.

Lemma entry_name_Some d path n :
  entry_name d path = Some n
  ↔ path = os_path_join d n ∧ n ≠ "" ∧ has_slash n = false.
Proof.
  unfold entry_name. split.
  - destruct (strip_prefix _ path) as [m|] eqn:E; simpl; [|done].
    destruct (String.eqb_spec m "") as [->|Hm]; simpl; [done|].
    destruct (has_slash m) eqn:Hs; [done|]. intros [= <-].
    apply strip_prefix_Some in E.
    by rewrite os_path_join_relative by by apply no_slash_not_absolute.
  - intros (-> & Hn & Hs).
    rewrite (os_path_join_relative d n) by by apply no_slash_not_absolute.
    assert (strip_prefix (os_path_join d "") (os_path_join d "" +:+ n) = Some n)
      as -> by by apply strip_prefix_Some.
    simpl. rewrite Hs. by destruct (String.eqb_spec n "").
Qed.

(** The output path of the directory tool is an entry of the input
    directory, and its name ends in [.png]. *)
Lemma output_path_entry d :
  entry_name d (os_path_join d "sprite_sheet.png") = Some "sprite_sheet.png"
  ∧ endswith (os_path_join d "sprite_sheet.png") ".png" = true.
Proof.
  split; [by apply entry_name_Some|].
  rewrite os_path_join_relative by done.
  change "sprite_sheet.png" with ("sprite_sheet" +:+ ".png").
  rewrite <-string_app_assoc. apply endswith_app.
Qed.

(** ** Directory listings *)

Lemma os_listdir_Ok fs d names :
  os_listdir fs d = Ok names
  ↔ fs !! d = Some Directory ∧ names = omap (entry_name d) (map_to_list fs).*1.
Proof.
  unfold os_listdir. destruct (fs !! d) as [[?|]|]; split; try done.
  - by intros [[=] _].
  - by intros [= <-].
  - by intros [_ ->].
  - by intros [[=] _].
Qed.

Lemma elem_of_listdir fs d names name :
  os_listdir fs d = Ok names → name ∈ names ↔ is_entry fs d name.
Proof.
  intros [_ ->]%os_listdir_Ok. rewrite list_elem_of_omap. unfold is_entry. split.
  - intros (path & Hpath & (Heq & Hn & Hs)%entry_name_Some).
    apply list_elem_of_fmap in Hpath as ([p v] & Hp & Hpv).
    apply elem_of_map_to_list in Hpv. simpl in Hp.
    rewrite <-Heq, Hp, Hpv. eauto.
  - intros (Hn & Hs & [v Hv]). exists (os_path_join d name). split.
    + apply list_elem_of_fmap. exists (os_path_join d name, v).
      split; [done|]. by apply elem_of_map_to_list.
    + by apply entry_name_Some.
Qed.

Lemma NoDup_omap_inj {A B} (f : A → option B) (l : list A) :
  (∀ x y z, f x = Some z → f y = Some z → x = y) → NoDup l → NoDup (omap f l).
Proof.
  intros Hinj. induction 1 as [|x l Hx Hl IH]; simpl; [constructor|].
  destruct (f x) as [z|] eqn:E; [|done].
  constructor; [|done]. intros (y & Hy & Hfy)%list_elem_of_omap.
  by rewrite (Hinj x y z) in Hx.
Qed.

Lemma NoDup_listdir fs d names : os_listdir fs d = Ok names → NoDup names.
Proof.
  intros [_ ->]%os_listdir_Ok. apply NoDup_omap_inj.
  - intros x y z (-> & _)%entry_name_Some (-> & _)%entry_name_Some. done.
  - apply NoDup_fst_map_to_list.
Qed.

(** Writing a new file into the directory adds its name to the listing. *)
Lemma listdir_insert_new fs d name v names :
  fs !! os_path_join d name = None →
  name ≠ "" → has_slash name = false →
  os_listdir fs d = Ok names →
  ∃ names', os_listdir (<[os_path_join d name := File v]> fs) d = Ok names'
            ∧ names' ≡ₚ name :: names.
Proof.
  intros Hnone Hn Hs [Hd ->]%os_listdir_Ok.
  eexists. split.
  - apply os_listdir_Ok. split; [|done].
    rewrite lookup_insert_ne; [done|]. intros E. by rewrite E, Hd in Hnone.
  - rewrite map_to_list_insert by done. simpl.
    assert (entry_name d (os_path_join d name) = Some name) as ->
      by by apply entry_name_Some.
    done.
Qed.

(** ** Sorting and comprehensions *)

Lemma StronglySorted_filter {A} (R : relation A) (P : A → Prop)
    `{∀ x, Decision (P x)} (l : list A) :
  StronglySorted R l → StronglySorted R (filter P l).
Proof.
  induction 1 as [|x l Hl IH Hx]; [constructor|].
  rewrite filter_cons. destruct (decide (P x)); [|done].
  constructor; [done|]. apply Forall_forall. intros y [_ Hy]%list_elem_of_filter.
  by eapply Forall_forall in Hx.
Qed.

Lemma sorted_Sorted l : Sorted String.le (sorted l).
Proof. apply (Sorted_merge_sort String.le). Qed.

Lemma sorted_Permutation l : sorted l ≡ₚ l.
Proof. apply (merge_sort_Permutation String.le). Qed.

(** There is one sorted arrangement of a list of strings: every correct
    sort gives the result of [sorted]. *)
Lemma sorted_unique l l' : Sorted String.le l' → l' ≡ₚ l → l' = sorted l.
Proof.
  intros Hs Hp. apply (Sorted_unique String.le); [done|apply sorted_Sorted|].
  by rewrite sorted_Permutation.
Qed.

(** Filtering the sorted names is sorting the filtered names. *)
Lemma filter_sorted (P : string → Prop) `{∀ x, Decision (P x)} l :
  filter P (sorted l) = sorted (filter P l).
Proof.
  apply sorted_unique.
  - apply StronglySorted_Sorted, StronglySorted_filter.
    apply (StronglySorted_merge_sort String.le).
  - by rewrite sorted_Permutation.
Qed.

Lemma comprehension_Ok {A B} (f : A → result B) l ys :
  comprehension f l = Ok ys ↔ Forall2 (λ x y, f x = Ok y) l ys.
Proof.
  split.
  - revert ys. induction l as [|x l IH]; intros ys; simpl.
    + intros [= <-]. constructor.
    + destruct (f x) as [y| |] eqn:Hx; simpl; [|done..].
      destruct (comprehension f l) as [ys'| |]; simpl; [|done..].
      intros [= <-]. constructor; [done|]. by apply IH.
  - induction 1 as [|x y l ys Hxy _ IH]; simpl; [done|].
    rewrite Hxy. simpl. by rewrite IH.
Qed.

Lemma Image_open_Ok fs path im :
  Image_open fs path = Ok im ↔ fs !! path = Some (File (Png im)).
Proof.
  unfold Image_open. destruct (fs !! path) as [[[?|]|]|]; split; congruence.
Qed.

(** ** The directory tool *)

Section create_sprite_sheet.
Import CreateSpriteSheet.

Lemma load_images_listed d w names :
  os_listdir (files w) d = Ok names →
  load_images d w
  = (comprehension (λ img, Image_open (files w) (os_path_join d img))
                   (image_files names), w).
Proof.
  intros Hnames. unfold load_images, image_files, reading, mbind, prog_bind.
  rewrite Hnames. by rewrite filter_sorted.
Qed.

Lemma load_images_Ok d w images :
  load_images d w = (Ok images, w)
  ↔ ∃ names, os_listdir (files w) d = Ok names
      ∧ Forall2 (λ f im, files w !! os_path_join d f = Some (File (Png im)))
                (image_files names) images.
Proof.
  split.
  - destruct (os_listdir (files w) d) as [names| |] eqn:Hnames.
    + rewrite (load_images_listed d w names) by done. intros [= Hc].
      exists names. split; [done|]. apply comprehension_Ok in Hc.
      eapply Forall2_impl; [done|]. intros f im. apply Image_open_Ok.
    + unfold load_images, reading, mbind, prog_bind. by rewrite Hnames.
    + unfold load_images, reading, mbind, prog_bind. by rewrite Hnames.
  - intros (names & Hnames & Hall).
    rewrite (load_images_listed d w names) by done. f_equal.
    apply comprehension_Ok. eapply Forall2_impl; [done|].
    intros f im. apply Image_open_Ok.
Qed.

Lemma create_sprite_sheet_run first rest output_path w :
  well_formed first →
  files w !! output_path ≠ Some Directory →
  create_sprite_sheet (first :: rest) output_path w
  = (Ok (), World (<[output_path := File (Png (composed first rest))]> (files w))
                  (stdout w)).
Proof.
  intros [Hw Hh] Hout.
  unfold create_sprite_sheet, composed, width, height, mbind, prog_bind, lift in *.
  simpl. destruct (size first) as [sw sh] eqn:Hsize. simpl in *.
  rewrite Image_new_ok by (done || pose proof (len_nonneg (first :: rest)); nia).
  unfold writing, save, paste_all, paste_from, enumerate.
  by destruct (files w !! output_path) as [[?|]|].
Qed.

Lemma main_saves d w first rest :
  load_images d w = (Ok (first :: rest), w) →
  well_formed first →
  files w !! os_path_join d "sprite_sheet.png" ≠ Some Directory →
  main d w
  = (Ok (), World (<[os_path_join d "sprite_sheet.png"
                     := File (Png (composed first rest))]> (files w))
                  (stdout w ++ ["Sprite sheet saved as "
                                +:+ os_path_join d "sprite_sheet.png"])).
Proof.
  intros Hload Hwf Hout. unfold main, mbind, prog_bind. rewrite Hload.
  by rewrite create_sprite_sheet_run.
Qed.

Lemma main_empty d w :
  load_images d w = (Ok [], w) →
  main d w
  = (Ok (), World (files w) (stdout w ++ ["No PNG files found in the directory."])).
Proof. intros Hload. unfold main, mbind, prog_bind. by rewrite Hload. Qed.

Lemma elem_of_image_files names f :
  f ∈ image_files names ↔ f ∈ names ∧ endswith f ".png" = true.
Proof.
  unfold image_files. rewrite sorted_Permutation, list_elem_of_filter.
  rewrite Is_true_true. tauto.
Qed.

(** Two entries of a directory with the same path have the same name. *)
Lemma os_path_join_entry_inj fs d f g :
  is_entry fs d f → is_entry fs d g → os_path_join d f = os_path_join d g → f = g.
Proof.
  intros (Hf & Hsf & _) (Hg & Hsg & _) Heq.
  assert (entry_name d (os_path_join d f) = Some f) as E1 by by apply entry_name_Some.
  assert (entry_name d (os_path_join d g) = Some g) as E2 by by apply entry_name_Some.
  rewrite Heq in E1. congruence.
Qed.

Lemma comprehension_total {A B} (f : A → result B) l :
  (∀ x, x ∈ l → ∃ y, f x = Ok y) → ∃ ys, comprehension f l = Ok ys.
Proof.
  induction l as [|x l IH]; intros Hall; simpl; [by eexists|].
  destruct (Hall x) as [y ->]; [by left|].
  destruct IH as [ys ->]; [intros z Hz; apply Hall; by right|].
  by eexists.
Qed.

(** A file named [sprite_sheet.png] in the directory is among the images
    loaded from it. *)
Lemma load_images_includes_sheet d w sheet images :
  files w !! os_path_join d "sprite_sheet.png" = Some (File (Png sheet)) →
  load_images d w = (Ok images, w) →
  sheet ∈ images.
Proof.
  intros Hsheet (names & Hnames & Hall)%load_images_Ok.
  assert ("sprite_sheet.png" ∈ image_files names) as Hin.
  { apply elem_of_image_files. split; [|done].
    eapply elem_of_listdir; [done|]. repeat split; [done|]. by rewrite Hsheet. }
  apply list_elem_of_lookup in Hin as [i Hi].
  destruct (Forall2_lookup_l _ _ _ _ _ Hall Hi) as (im & Him & Hfile).
  rewrite Hsheet in Hfile. simplify_eq. by eapply list_elem_of_lookup_2.
Qed.

Lemma image_files_nil names :
  Forall (λ f, endswith f ".png" = false) names → image_files names = [].
Proof.
  intros Hall. unfold image_files.
  assert (filter (λ f, endswith f ".png") names = []) as ->; [|done].
  induction Hall as [|f names Hf _ IH]; [done|].
  rewrite filter_cons. destruct (decide _) as [Hp|]; [|done].
  by rewrite Hf in Hp.
Qed.

(** Once the sheet is written into a directory that had none, the directory
    loads one image more. *)
Lemma load_images_after_save d w names images sheet out :
  os_listdir (files w) d = Ok names →
  Forall2 (λ f im, files w !! os_path_join d f = Some (File (Png im)))
          (image_files names) images →
  files w !! os_path_join d "sprite_sheet.png" = None →
  let w' := World (<[os_path_join d "sprite_sheet.png" := File (Png sheet)]> (files w))
                  out in
  ∃ images', load_images d w' = (Ok images', w')
             ∧ length images' = S (length images).
Proof.
  intros Hnames Hall Hnone w'.
  destruct (listdir_insert_new (files w) d "sprite_sheet.png" (Png sheet) names)
    as (names' & Hnames' & Hperm); [done..|].
  assert (image_files names' ≡ₚ "sprite_sheet.png" :: image_files names) as Hfiles.
  { unfold image_files. rewrite !sorted_Permutation, Hperm.
    by rewrite filter_cons_True. }
  destruct (comprehension_total
              (λ img, Image_open (files w') (os_path_join d img))
              (image_files names')) as [images' Himages'].
  { intros f Hf. rewrite Hfiles in Hf. apply elem_of_cons in Hf as [->|Hf].
    - exists sheet. apply Image_open_Ok. apply lookup_insert_eq.
    - apply list_elem_of_lookup in Hf as [i Hi].
      destruct (Forall2_lookup_l _ _ _ _ _ Hall Hi) as (im & _ & Him).
      exists im. apply Image_open_Ok. simpl.
      rewrite lookup_insert_ne; [done|]. intros E. by rewrite E, Him in Hnone. }
  exists images'. split.
  - rewrite (load_images_listed d w' names') by done. by rewrite Himages'.
  - apply comprehension_Ok, Forall2_length in Himages'.
    apply Forall2_length in Hall.
    rewrite <-Himages', Hfiles. simpl. by rewrite Hall.
Qed.

Lemma paste_from_boxes w images : ∀ k sheet,
  paste_from w k images sheet
  = fold_left (λ sheet '(image, box), paste sheet image box)
      (zip images ((λ '(index, _), (index * w, 0)) <$> enumerate_from k images))
      sheet.
Proof.
  induction images as [|im images IH]; intros k sheet; [done|].
  rewrite paste_from_cons, IH. done.
Qed.

Lemma enumerate_from_boxes {A} w (l : list A) : ∀ k,
  (λ '(index, _), (index * w, 0)) <$> enumerate_from k l
  = (λ i : nat, ((k + Z.of_nat i) * w, 0)) <$> seq 0 (length l).
Proof.
  induction l as [|x l IH]; intros k; [done|]. simpl. f_equal.
  - f_equal. lia.
  - rewrite IH, <-fmap_S_seq, <-list_fmap_compose. apply list_fmap_ext.
    intros _ i _. simpl. f_equal. lia.
Qed.

End create_sprite_sheet.

(** ** Claims about the directory tool *)

Section directory_tool.
Import CreateSpriteSheet.

(** Claim C4.  For a directory [d], [load_images] opens exactly the entries
    of [d] whose name ends in [.png] (byte for byte, so [.PNG] does not
    count): [image_files] holds each such name once, in lexicographic order,
    and no name of something deeper than [d] (an entry is a single path
    component).  [load_images] returns a list of images exactly when each of
    these files decodes, and the list is then the decoded images in that
    order; the world is left as it was. *)
Theorem load_images_sorted_png (d : string) (w : world) :
  files w !! d = Some Directory →
  ∃ image_files : list string,
    (∀ f, f ∈ image_files ↔ is_entry (files w) d f ∧ endswith f ".png" = true)
    ∧ NoDup image_files
    ∧ Sorted String.le image_files
    ∧ (load_images d w).2 = w
    ∧ ∀ images,
        load_images d w = (Ok images, w)
        ↔ Forall2 (λ f im, files w !! os_path_join d f = Some (File (Png im)))
                  image_files images.
Proof.
  intros Hd.
  destruct (os_listdir (files w) d) as [names| |] eqn:Hnames;
    try (unfold os_listdir in Hnames; by rewrite Hd in Hnames).
  exists (image_files names). split_and!.
  - intros f. rewrite elem_of_image_files.
    by rewrite (elem_of_listdir (files w) d names f).
  - unfold image_files. rewrite sorted_Permutation.
    apply NoDup_filter. by eapply NoDup_listdir.
  - apply sorted_Sorted.
  - by rewrite (load_images_listed d w names).
  - intros images. rewrite load_images_Ok. split.
    + intros (names' & Hnames' & Hall). rewrite Hnames in Hnames'.
      by injection Hnames' as ->.
    + intros Hall. by exists names.
Qed.

(** Claim C5.  When no entry of the input directory has a name ending in
    [.png], the tool ends normally, leaves the file system as it was (no
    output file is written) and prints the one line
    "No PNG files found in the directory.". *)
Theorem no_png_no_sheet (d : string) (w : world) (names : list string) :
  os_listdir (files w) d = Ok names →
  Forall (λ f, endswith f ".png" = false) names →
  main d w
  = (Ok (), World (files w) (stdout w ++ ["No PNG files found in the directory."])).
Proof.
  intros Hnames Hall. apply main_empty.
  rewrite (load_images_listed d w names) by done.
  by rewrite image_files_nil.
Qed.

(** Claim C9.  The output path [<d>/sprite_sheet.png] is an entry of the
    input directory [d] and ends in [.png]; so, in every world where that
    file is there, [load_images] has its image among the images it returns.
    In particular, after a run that composed a sheet in a directory that had
    none, a second run loads that sheet too: one image more than the first
    run. *)
Theorem output_feeds_next_run (d : string) (w : world) (first : Image)
    (rest : list Image) :
  load_images d w = (Ok (first :: rest), w) →
  well_formed first →
  files w !! os_path_join d "sprite_sheet.png" = None →
  entry_name d (os_path_join d "sprite_sheet.png") = Some "sprite_sheet.png"
  ∧ endswith (os_path_join d "sprite_sheet.png") ".png" = true
  ∧ (∀ w0 sheet0 images0,
       files w0 !! os_path_join d "sprite_sheet.png" = Some (File (Png sheet0)) →
       load_images d w0 = (Ok images0, w0) →
       sheet0 ∈ images0)
  ∧ ∃ w' sheet images',
      main d w = (Ok (), w')
      ∧ files w' !! os_path_join d "sprite_sheet.png" = Some (File (Png sheet))
      ∧ load_images d w' = (Ok images', w')
      ∧ sheet ∈ images'
      ∧ length images' = S (length (first :: rest)).
Proof.
  intros Hload Hwf Hnone.
  destruct (output_path_entry d) as [Hentry Hpng].
  split_and!; [done|done|apply load_images_includes_sheet|].
  pose proof Hload as (names & Hnames & Hall)%load_images_Ok.
  destruct (load_images_after_save d w names (first :: rest) (composed first rest)
              (stdout w ++ ["Sprite sheet saved as "
                            +:+ os_path_join d "sprite_sheet.png"]))
    as (images' & Hload' & Hlen); [done..|].
  eexists _, (composed first rest), images'. split_and!.
  - apply main_saves; [done|done|]. by rewrite Hnone.
  - apply lookup_insert_eq.
  - done.
  - eapply load_images_includes_sheet; [|done]. apply lookup_insert_eq.
  - done.
Qed.

(** Claim C10.  For a non-empty sequence of images, equally sized or not,
    whose first image has a positive width and height and whose pixels an
    RGBA sheet keeps, and a [.png] name in an existing directory, the sheet
    the directory tool saves is
    [width first * N] wide and [height first] high, and the [k]-th image is
    pasted at [(k * width first, 0)]: replacing the later images by any
    others, of any sizes, changes neither the size of the sheet nor the boxes
    pasted at. *)
Theorem first_image_sets_layout (first : Image) (rest rest' : list Image)
    (d name : string) (w : world) :
  0 < width first → 0 < height first →
  Forall (keeps_pixels RGBA) (first :: rest) →
  files w !! d = Some Directory →
  png_name name = true →
  files w !! os_path_join d name ≠ Some Directory →
  length rest' = length rest →
  ∃ sheet sheet',
    create_sprite_sheet (first :: rest) (os_path_join d name) w
    = (Ok (), World (<[os_path_join d name := File (Png sheet)]> (files w)) (stdout w))
    ∧ create_sprite_sheet (first :: rest') (os_path_join d name) w
      = (Ok (), World (<[os_path_join d name := File (Png sheet')]> (files w))
                      (stdout w))
    ∧ size sheet = (width first * len (first :: rest), height first)
    ∧ size sheet' = size sheet
    ∧ sheet
      = fold_left (λ sheet '(image, box), paste sheet image box)
          (zip (first :: rest) (paste_boxes (first :: rest)))
          (mkImage RGBA (width first * len (first :: rest), height first)
                   (λ _ _, transparent))
    ∧ paste_boxes (first :: rest)
      = (λ k : nat, (Z.of_nat k * width first, 0)) <$> seq 0 (length (first :: rest))
    ∧ paste_boxes (first :: rest') = paste_boxes (first :: rest).
Proof.
  intros Hw Hh _ _ _ Hout Hlen.
  assert (well_formed first) as Hwf by (split; lia).
  assert (∀ l, paste_boxes (first :: l)
               = (λ k : nat, (Z.of_nat k * width first, 0))
                   <$> seq 0 (length (first :: l))) as Hboxes.
  { intros l. unfold paste_boxes, enumerate.
    rewrite enumerate_from_boxes. apply list_fmap_ext. intros _ k _. done. }
  exists (composed first rest), (composed first rest'). split_and!.
  - by apply create_sprite_sheet_run.
  - by apply create_sprite_sheet_run.
  - unfold composed. by rewrite paste_from_size.
  - unfold composed, len. rewrite !paste_from_size. simpl. by rewrite Hlen.
  - unfold composed. by rewrite paste_from_boxes.
  - apply Hboxes.
  - rewrite !Hboxes. simpl. by rewrite Hlen.
Qed.

End directory_tool.

(** ** Claims about the compositor of either script *)

Lemma tiles_sheet_run images w h output_path wd :
  0 ≤ w → 0 ≤ h →
  files wd !! output_path ≠ Some Directory →
  SpriteTest.create_sprite_sheet images w h output_path wd
  = (Ok (), World (<[output_path := File (Png (composed_tiles images w h))]> (files wd))
                  (stdout wd)).
Proof.
  intros Hw Hh Hout.
  unfold SpriteTest.create_sprite_sheet, composed_tiles, mbind, prog_bind, lift.
  rewrite Image_new_ok by (done || pose proof (len_nonneg images); nia).
  unfold writing, save, SpriteTest.paste_all, paste_from, enumerate.
  by destruct (files wd !! output_path) as [[?|]|].
Qed.

Lemma composed_same_size first rest w h :
  size first = (w, h) →
  composed first rest
  = paste_from w 0 (first :: rest)
      (mkImage RGBA (w * len (first :: rest), h) (λ _ _, transparent)).
Proof. intros Hsize. unfold composed, width, height. by rewrite Hsize. Qed.

(** Claim C1.  For a non-empty sequence of [N] images, all of size
    [(w, h)] with [w] and [h] positive, and a [.png] name in an existing
    directory, the compositor of either script ends normally and saves, at
    that path, a sheet of size [(N * w, h)] (the synthetic tool's compositor
    being called with the tile size [w], [h] of its images). *)
Theorem sheet_dimensions (images : list Image) (w h : Z) (d name : string)
    (wd : world) :
  images ≠ [] →
  Forall (λ im, size im = (w, h)) images →
  0 < w → 0 < h →
  files wd !! d = Some Directory →
  png_name name = true →
  files wd !! os_path_join d name ≠ Some Directory →
  ∃ sheet1 sheet2,
    CreateSpriteSheet.create_sprite_sheet images (os_path_join d name) wd
    = (Ok (), World (<[os_path_join d name := File (Png sheet1)]> (files wd))
                    (stdout wd))
    ∧ SpriteTest.create_sprite_sheet images w h (os_path_join d name) wd
      = (Ok (), World (<[os_path_join d name := File (Png sheet2)]> (files wd))
                      (stdout wd))
    ∧ size sheet1 = (len images * w, h)
    ∧ size sheet2 = (len images * w, h).
Proof.
  intros Hne Hall Hw Hh _ _ Hout. destruct images as [|first rest]; [done|].
  pose proof (Forall_inv Hall) as Hfirst. simpl in Hfirst.
  exists (composed first rest), (composed_tiles (first :: rest) w h). split_and!.
  - apply create_sprite_sheet_run; [|done].
    unfold well_formed, width, height. rewrite Hfirst. simpl. lia.
  - apply tiles_sheet_run; [lia|lia|done].
  - rewrite (composed_same_size first rest w h), paste_from_size by done.
    simpl. f_equal. lia.
  - unfold composed_tiles. by rewrite paste_from_size.
Qed.

(** Claim C2.  For a non-empty sequence of [N] images, all of size
    [(w, h)] with [w] and [h] positive, a [.png] name in an existing
    directory, and every index [i] below [N], the slice of the saved sheet
    that covers the columns from [i * w] up to [(i + 1) * w] and all its rows
    is pixel-identical to image [i]: each paste overwrote the sheet there and
    no later paste touched it.  This holds for the compositor of either
    script, for images whose pixels the sheet's mode keeps: for the RGBA
    sheet of the directory tool, images that are RGBA or opaque; for the RGB
    sheet of the synthetic tool, images that are RGB or opaque. *)
Theorem slices_are_inputs (images : list Image) (w h : Z) (d name : string)
    (wd : world) :
  images ≠ [] →
  Forall (λ im, size im = (w, h)) images →
  0 < w → 0 < h →
  files wd !! d = Some Directory →
  png_name name = true →
  files wd !! os_path_join d name ≠ Some Directory →
  (Forall (keeps_pixels RGBA) images →
   ∃ sheet1,
     CreateSpriteSheet.create_sprite_sheet images (os_path_join d name) wd
     = (Ok (), World (<[os_path_join d name := File (Png sheet1)]> (files wd))
                     (stdout wd))
     ∧ ∀ (i : nat) (im : Image),
         images !! i = Some im →
         pixel_identical
           (crop sheet1 (Z.of_nat i * w, 0, (Z.of_nat i + 1) * w, h)) im)
  ∧ (Forall (keeps_pixels RGB) images →
     ∃ sheet2,
       SpriteTest.create_sprite_sheet images w h (os_path_join d name) wd
       = (Ok (), World (<[os_path_join d name := File (Png sheet2)]> (files wd))
                       (stdout wd))
       ∧ ∀ (i : nat) (im : Image),
           images !! i = Some im →
           pixel_identical
             (crop sheet2 (Z.of_nat i * w, 0, (Z.of_nat i + 1) * w, h)) im).
Proof.
  intros Hne Hall Hw Hh _ _ Hout. destruct images as [|first rest]; [done|].
  pose proof (Forall_inv Hall) as Hfirst. simpl in Hfirst. split.
  - intros _. exists (composed first rest). split.
    + apply create_sprite_sheet_run; [|done].
      unfold well_formed, width, height. rewrite Hfirst. simpl. lia.
    + intros i im Hi. rewrite (composed_same_size first rest w h) by done.
      apply slice_identical; [done|done|lia|]. simpl. f_equal. lia.
  - intros _. exists (composed_tiles (first :: rest) w h). split.
    + apply tiles_sheet_run; [lia|lia|done].
    + intros i im Hi. unfold composed_tiles.
      apply slice_identical; [done|done|lia|done].
Qed.

(** ** The synthetic tool *)

Section synthetic_tool.
Context `{FontLibrary}.
Import SpriteTest.

Lemma fit_loop_unfold fuel path width height text font_size font :
  fit_loop (S fuel) path width height text font_size font
  = if fits width height (textbbox font text)
    then Ok (font_size, font, textbbox font text)
    else font' ← truetype path (font_size - 10);
         fit_loop fuel path width height text (font_size - 10) font'.
Proof. reflexivity. Qed.

(** When the loop ends, it ends with the box of the font it returns, and
    that box fits. *)
Lemma fit_loop_fits path width height text : ∀ fuel font_size font r,
  fit_loop fuel path width height text font_size font = Ok r →
  r.2 = textbbox r.1.2 text ∧ fits width height r.2 = true.
Proof.
  induction fuel as [|fuel IH]; intros font_size font r; [done|].
  rewrite fit_loop_unfold.
  destruct (fits width height (textbbox font text)) eqn:Hfits.
  - by intros [= <-].
  - destruct (truetype path (font_size - 10)) as [font'| |]; simpl; [|done..].
    apply IH.
Qed.

(** If the label fits at the [k]-th size tried, and the font loads at the
    sizes tried before, the loop ends at the first size that fits, after at
    most [k] decrements. *)
Lemma fit_loop_ends path width height text : ∀ (k : nat) (fnt : nat → Font)
    (font_size : Z) (fuel : nat),
  (∀ j : nat, (1 ≤ j ≤ k)%nat →
              truetype path (font_size - 10 * Z.of_nat j) = Ok (fnt j)) →
  fits width height (textbbox (fnt k) text) = true →
  (k < fuel)%nat →
  ∃ j : nat, (j ≤ k)%nat
    ∧ fit_loop fuel path width height text font_size (fnt 0%nat)
      = Ok (font_size - 10 * Z.of_nat j, fnt j, textbbox (fnt j) text)
    ∧ fits width height (textbbox (fnt j) text) = true
    ∧ ∀ j' : nat, (j' < j)%nat → fits width height (textbbox (fnt j') text) = false.
Proof.
  induction k as [|k IH]; intros fnt font_size fuel Hload Hfits Hfuel;
    (destruct fuel as [|fuel]; [lia|]); rewrite fit_loop_unfold.
  - exists 0%nat. rewrite Hfits. split_and!; [lia| |done|lia].
    do 3 f_equal. lia.
  - destruct (fits width height (textbbox (fnt 0%nat) text)) eqn:H0.
    + exists 0%nat. split_and!; [lia| |done|lia]. do 3 f_equal. lia.
    + pose proof (Hload 1%nat ltac:(lia)) as H1.
      replace (font_size - 10 * Z.of_nat 1) with (font_size - 10) in H1 by lia.
      rewrite H1. simpl.
      destruct (IH (λ j, fnt (S j)) (font_size - 10) fuel) as (j & Hj & Hrun & Hfit & Hmin).
      * intros j Hj. rewrite <-(Hload (S j)) by lia. f_equal. lia.
      * done.
      * lia.
      * exists (S j). split_and!; [lia| |done|].
        -- rewrite Hrun. do 3 f_equal. lia.
        -- intros [|j'] Hj'; [done|]. apply Hmin. lia.
Qed.

Lemma tile_font fuel width height bg font_path path init color text_bbox i r :
  truthy font_path = Some path →
  tile fuel width height bg font_path init color text_bbox i = Ok r →
  0 ≤ width ∧ 0 ≤ height
  ∧ drawn_tile fuel width height bg path init color i r.1.
Proof.
  intros Hpath. unfold tile. rewrite Hpath. unfold Image_new. simpl.
  destruct (Z.ltb_spec width 0); [done|]. destruct (Z.ltb_spec height 0); [done|].
  simpl. destruct (truetype path init) as [font0| |] eqn:Hfont0; simpl; [|done..].
  destruct (fit_loop fuel path width height (str i) init font0)
    as [[[font_size font] bbox]| |] eqn:Hloop; simpl; [|done..].
  intros [= <-]. split_and!; [done..|]. by exists font0, font_size, font, bbox.
Qed.

Lemma tile_font_ok fuel width height bg font_path path init color text_bbox i :
  truthy font_path = Some path →
  0 ≤ width → 0 ≤ height →
  (∃ font0 r, truetype path init = Ok font0
              ∧ fit_loop fuel path width height (str i) init font0 = Ok r) →
  ∃ r, tile fuel width height bg font_path init color text_bbox i = Ok r.
Proof.
  intros Hpath Hw Hh (font0 & [[font_size font] bbox] & Hfont0 & Hloop).
  unfold tile. rewrite Hpath, Image_new_ok by done. simpl.
  rewrite Hfont0. simpl. rewrite Hloop. simpl. by eexists.
Qed.

(** Without a font path the variable [text_bbox] is read before anything
    was assigned to it. *)
Lemma tile_no_font fuel width height bg font_path init color i :
  truthy font_path = None →
  0 ≤ width → 0 ≤ height →
  tile fuel width height bg font_path init color None i = Raise UnboundLocalError.
Proof.
  intros Hpath Hw Hh. unfold tile. rewrite Hpath, Image_new_ok by done. simpl.
  by destruct (textsize load_default (str i)).
Qed.

Lemma tile_no_font_fails fuel width height bg font_path init color i r :
  truthy font_path = None →
  tile fuel width height bg font_path init color None i ≠ Ok r.
Proof.
  intros Hpath. unfold tile. rewrite Hpath. unfold Image_new. simpl.
  destruct (_ || _); simpl; [done|].
  by destruct (textsize load_default (str i)).
Qed.

Lemma tiles_font fuel width height bg font_path path init color : ∀ indices acc
    text_bbox images,
  truthy font_path = Some path →
  tiles fuel width height bg font_path init color indices acc text_bbox = Ok images →
  ∃ new, images = (acc ++ new)%list
         ∧ Forall2 (drawn_tile fuel width height bg path init color) indices new.
Proof.
  induction indices as [|i indices IH]; intros acc text_bbox images Hpath; simpl.
  - intros [= <-]. exists []. by rewrite app_nil_r.
  - destruct (tile fuel width height bg font_path init color text_bbox i)
      as [[image text_bbox']| |] eqn:Htile; simpl; [|done..].
    intros (new & -> & Hnew)%IH; [|done].
    apply (tile_font _ _ _ _ _ path) in Htile as (_ & _ & Htile); [|done].
    exists (image :: new). split; [by rewrite <-app_assoc|]. by constructor.
Qed.

Lemma tiles_font_ok fuel width height bg font_path path init color : ∀ indices acc
    text_bbox,
  truthy font_path = Some path →
  0 ≤ width → 0 ≤ height →
  Forall (λ i, ∃ font0 r, truetype path init = Ok font0
               ∧ fit_loop fuel path width height (str i) init font0 = Ok r)
         indices →
  ∃ images,
    tiles fuel width height bg font_path init color indices acc text_bbox = Ok images.
Proof.
  induction indices as [|i indices IH]; intros acc text_bbox Hpath Hw Hh Hall;
    simpl; [by eexists|].
  apply Forall_cons in Hall as [Hi Hall].
  destruct (tile_font_ok fuel width height bg font_path path init color
              text_bbox i) as [[image text_bbox'] ->]; [done..|].
  simpl. by apply IH.
Qed.

Lemma tiles_no_font fuel width height bg font_path init color indices acc images :
  truthy font_path = None →
  tiles fuel width height bg font_path init color indices acc None = Ok images →
  indices = [].
Proof.
  intros Hpath. destruct indices as [|i indices]; [done|]. simpl.
  destruct (tile fuel width height bg font_path init color None i)
    as [r| |] eqn:Htile; simpl; [|done..].
  by apply tile_no_font_fails in Htile.
Qed.

End synthetic_tool.

(** ** Claims about the synthetic tool *)

Section synthetic_claims.
Context `{FontLibrary}.
Import SpriteTest.

Lemma no_font_found w :
  Forall (λ p, files w !! p = None) possible_paths →
  get_font_path w
  = (Ok None,
     World (files w)
           (stdout w ++ ["None of the specified font files were found. Using the default PIL font."])).
Proof.
  intros Hnone. unfold get_font_path, reading, mbind, prog_bind.
  assert (find (os_path_exists (files w)) possible_paths = None) as ->; [|done].
  induction Hnone as [|p paths Hp _ IH]; [done|]. simpl.
  unfold os_path_exists at 1. rewrite Hp.
  by rewrite bool_decide_eq_false_2 by apply is_Some_None.
Qed.

(** Claim C3 (what the code does instead).  When none of the probed font
    files exists, the tool prints that it falls back to the default font and
    then stops with an [UnboundLocalError] at the first tile: no tile is
    produced and no sheet is written. *)
Theorem default_font_is_fatal (home : string) (fuel : nat) (w : world) :
  Forall (λ p, files w !! p = None) possible_paths →
  main home fuel w
  = (Raise UnboundLocalError,
     World (files w)
           (stdout w ++ ["None of the specified font files were found. Using the default PIL font."])).
Proof.
  intros Hnone. unfold main, mbind at 1, prog_bind at 1.
  rewrite no_font_found by done.
  unfold mbind, prog_bind, lift, create_individual_images.
  change (seqZ 1 8) with (1 :: seqZ 2 7).
  unfold tiles. by rewrite tile_no_font.
Qed.

(** Claim C6.  With a font that loads at the sizes 250, 240, ..., 10 and in
    which the label fits the tile of 276 by 315 at size 10, the size-fit
    loop started at size 250 ends after at most 24 decrements of 10 (25
    measurements): it returns the first size of 250, 240, ... at which the
    measured box is at most 276 wide and at most 315 high. *)
Theorem size_fit_terminates (path : string) (fnt : Z → Font) (text : string)
    (fuel : nat) :
  (∀ s, 10 ≤ s ≤ 250 → truetype path s = Ok (fnt s)) →
  fits 276 315 (textbbox (fnt 10) text) = true →
  (25 ≤ fuel)%nat →
  ∃ k : nat, (k ≤ 24)%nat
    ∧ fit_loop fuel path 276 315 text 250 (fnt 250)
      = Ok (250 - 10 * Z.of_nat k, fnt (250 - 10 * Z.of_nat k),
            textbbox (fnt (250 - 10 * Z.of_nat k)) text)
    ∧ (let text_bbox := textbbox (fnt (250 - 10 * Z.of_nat k)) text in
       text_bbox.1.2 - text_bbox.1.1.1 ≤ 276 ∧ text_bbox.2 - text_bbox.1.1.2 ≤ 315)
    ∧ ∀ j : nat, (j < k)%nat →
        fits 276 315 (textbbox (fnt (250 - 10 * Z.of_nat j)) text) = false.
Proof.
  intros Hload Hfit Hfuel.
  destruct (fit_loop_ends path 276 315 text 24 (λ j, fnt (250 - 10 * Z.of_nat j))
              250 fuel) as (k & Hk & Hrun & Hfits & Hmin).
  - intros j Hj. apply Hload. lia.
  - done.
  - lia.
  - exists k. split_and!; [done|done| |done].
    unfold fits in Hfits. apply andb_true_iff in Hfits as [?%Z.leb_le ?%Z.leb_le].
    done.
Qed.

(** Claim C7 (amended).  For every count [N], when a non-empty font path is
    given, the width and height are not negative, and for each label from 1
    to [N] the font loads at the initial size and the size-fit loop ends,
    [create_individual_images] returns exactly [N] images (none for a
    negative [N]); the image at position [i - 1] is the canvas of the given
    width and height filled with the background colour, on which the decimal
    writing of [i] was drawn in the font colour. *)
Theorem tiles_produced (fuel : nat) (count width height : Z)
    (background_color : Z * Z * Z) (font_path : option string) (path : string)
    (initial_font_size : Z) (font_color : Z * Z * Z) :
  truthy font_path = Some path →
  0 ≤ width → 0 ≤ height →
  (∀ i, 1 ≤ i ≤ count →
        ∃ font0 r, truetype path initial_font_size = Ok font0
                   ∧ fit_loop fuel path width height (str i) initial_font_size font0
                     = Ok r) →
  ∃ images,
    create_individual_images fuel count width height background_color font_path
                             initial_font_size font_color = Ok images
    ∧ length images = Z.to_nat count
    ∧ ∀ i, 1 ≤ i ≤ count →
        ∃ font xy,
          images !! Z.to_nat (i - 1)
          = Some (draw_text
                    (mkImage RGB (width, height) (λ _ _, rgb background_color))
                    xy (str i) (rgb font_color) font).
Proof.
  intros Hpath Hw Hh Hloops. unfold create_individual_images.
  destruct (tiles_font_ok fuel width height background_color font_path path
              initial_font_size font_color (seqZ 1 count) [] None)
    as [images Himages]; [done..| |].
  { apply Forall_forall. intros i Hi%elem_of_seqZ. apply Hloops. lia. }
  exists images. split; [done|].
  apply (tiles_font _ _ _ _ _ path) in Himages as (new & -> & Hnew); [|done].
  simpl. pose proof (Forall2_length _ _ _ Hnew) as Hlen.
  rewrite length_seqZ in Hlen. split; [done|].
  intros i Hi.
  assert (seqZ 1 count !! Z.to_nat (i - 1) = Some i) as Hidx.
  { rewrite lookup_seqZ_lt by lia. f_equal. lia. }
  destruct (Forall2_lookup_l _ _ _ _ _ Hnew Hidx)
    as (image & Himage & (_ & _ & font & bbox & _ & _ & ->)).
  by eexists _, _.
Qed.

(** Claim C8.  In every tile [create_individual_images] returns, the label
    [str i] was drawn at the position whose coordinates are, for each axis,
    (tile dimension - text dimension) // 2 minus the origin coordinate of
    the box measured for the label in the font it is drawn with, the text
    dimensions being the extents [x1 - x0] and [y1 - y0] of that box. *)
Theorem label_position (fuel : nat) (count width height : Z)
    (background_color : Z * Z * Z) (font_path : option string)
    (initial_font_size : Z) (font_color : Z * Z * Z) (images : list Image) :
  create_individual_images fuel count width height background_color font_path
                           initial_font_size font_color = Ok images →
  ∀ i, 1 ≤ i ≤ count →
    ∃ canvas font x0 y0 x1 y1,
      textbbox font (str i) = (x0, y0, x1, y1)
      ∧ images !! Z.to_nat (i - 1)
        = Some (draw_text canvas
                  ((width - (x1 - x0)) `div` 2 - x0,
                   (height - (y1 - y0)) `div` 2 - y0)
                  (str i) (rgb font_color) font).
Proof.
  unfold create_individual_images. intros Himages i Hi.
  assert (seqZ 1 count !! Z.to_nat (i - 1) = Some i) as Hidx.
  { rewrite lookup_seqZ_lt by lia. f_equal. lia. }
  destruct (truthy font_path) as [path|] eqn:Hpath.
  - apply (tiles_font _ _ _ _ _ path) in Himages as (new & -> & Hnew); [|done].
    destruct (Forall2_lookup_l _ _ _ _ _ Hnew Hidx)
      as (image & Himage & (font0 & font_size & font & bbox & _ & Hloop & ->)).
    apply fit_loop_fits in Hloop as [Hbox _]. simpl in Hbox.
    destruct bbox as [[[x0 y0] x1] y1].
    by exists (mkImage RGB (width, height) (λ _ _, rgb background_color)),
              font, x0, y0, x1, y1.
  - apply tiles_no_font in Himages; [|done]. by rewrite Himages in Hidx.
Qed.

End synthetic_claims.

(** * Further properties of the two scripts *)

(** ** The directory tool, continued *)

Section directory_tool_more.
Import CreateSpriteSheet.








End directory_tool_more.

(** ** What the pasted sheet shows *)

(** A pixel no pasted image covers is left as it was. *)
Lemma paste_from_untouched w images : ∀ k sheet x y,
  (∀ (j : nat) im, images !! j = Some im →
                   inside (size im) (x - (k + Z.of_nat j) * w) y = false) →
  data (paste_from w k images sheet) x y = data sheet x y.
Proof.
  induction images as [|im0 images IH]; intros k sheet x y Hfree; [done|].
  rewrite paste_from_cons, IH.
  - simpl. rewrite Z.sub_0_r.
    replace (x - k * w) with (x - (k + Z.of_nat 0) * w) by lia.
    by rewrite (Hfree 0%nat im0).
  - intros j im Hj. rewrite <-(Hfree (S j) im Hj). do 2 f_equal. lia.
Qed.

(** A pixel shows the last pasted image that covers it. *)
Lemma paste_from_last w images : ∀ k sheet x y (i : nat) im,
  images !! i = Some im →
  inside (size im) (x - (k + Z.of_nat i) * w) y = true →
  (∀ (j : nat) im', (i < j)%nat → images !! j = Some im' →
                    inside (size im') (x - (k + Z.of_nat j) * w) y = false) →
  data (paste_from w k images sheet) x y = data im (x - (k + Z.of_nat i) * w) y.
Proof.
  induction images as [|im0 images IH]; intros k sheet x y i im Hi Hin Hlater;
    [done|].
  rewrite paste_from_cons. destruct i as [|i]; simplify_eq/=.
  - rewrite paste_from_untouched.
    + simpl. rewrite Z.sub_0_r.
      replace (x - (k + Z.of_nat 0) * w) with (x - k * w) in * by lia.
      by rewrite Hin.
    + intros j im' Hj. rewrite <-(Hlater (S j) im'); [|lia|done].
      do 2 f_equal. lia.
  - rewrite (IH (k + 1) _ x y i im); [f_equal; lia|done| |].
    + rewrite <-Hin. do 2 f_equal. lia.
    + intros j im' Hij Hj. rewrite <-(Hlater (S j) im'); [|lia|done].
      do 2 f_equal. lia.
Qed.

(** Property X3.  In the sheet the directory tool saves, under a [.png]
    name in an existing directory, for images of any sizes (the first of a
    positive size) whose pixels an RGBA sheet keeps, every position of the
    sheet shows the last image, in sequence order, whose pasted rectangle
    (its own size, from column [index * width first] and row 0) covers the
    position, and is transparent where no image covers it: an image wider
    than the first is overwritten by its successor where they overlap, a
    smaller one leaves a transparent gap, and what reaches beyond the sheet
    is cut off. *)
Theorem directory_sheet_pixels (first : Image) (rest : list Image)
    (d name : string) (w : world) :
  0 < width first → 0 < height first →
  Forall (keeps_pixels RGBA) (first :: rest) →
  files w !! d = Some Directory →
  png_name name = true →
  files w !! os_path_join d name ≠ Some Directory →
  ∃ sheet,
    CreateSpriteSheet.create_sprite_sheet (first :: rest) (os_path_join d name) w
    = (Ok (), World (<[os_path_join d name := File (Png sheet)]> (files w)) (stdout w))
    ∧ ∀ x y, inside (size sheet) x y = true →
        (∀ (i : nat) im,
           (first :: rest) !! i = Some im →
           inside (size im) (x - Z.of_nat i * width first) y = true →
           (∀ (j : nat) im', (i < j)%nat → (first :: rest) !! j = Some im' →
              inside (size im') (x - Z.of_nat j * width first) y = false) →
           getpixel sheet (x, y) = getpixel im (x - Z.of_nat i * width first, y))
        ∧ ((∀ (j : nat) im', (first :: rest) !! j = Some im' →
              inside (size im') (x - Z.of_nat j * width first) y = false) →
           getpixel sheet (x, y) = Ok transparent).
Proof.
  intros Hw Hh _ _ _ Hout. exists (composed first rest). split.
  { apply create_sprite_sheet_run; [split; lia|done]. }
  intros x y Hin. unfold getpixel. simpl. rewrite Hin. split.
  - intros i im Hi Hcover Hlater. rewrite Hcover. f_equal. unfold composed.
    rewrite (paste_from_last _ _ 0 _ x y i im); [done..| |].
    + by rewrite Z.add_0_l.
    + intros j im' Hij Hj. rewrite Z.add_0_l. by apply Hlater.
  - intros Hfree. f_equal. unfold composed. rewrite paste_from_untouched; [done|].
    intros j im Hj. rewrite Z.add_0_l. by apply Hfree.
Qed.

(** Property X4.  The compositor of the synthetic tool places its images by
    the [width] it is given, not by their sizes: for a non-empty list of
    images that are RGB or opaque, a positive [width] and [height] and a
    [.png] name in an existing directory, the RGB sheet saved is
    [len images * width] wide and [height] high, every position of it shows
    the last image whose rectangle from column [index * width] covers it, and
    it is white where no image covers it. *)
Theorem tiles_sheet_pixels (images : list Image) (width height : Z)
    (d name : string) (w : world) :
  0 < width → 0 < height → images ≠ [] →
  Forall (keeps_pixels RGB) images →
  files w !! d = Some Directory →
  png_name name = true →
  files w !! os_path_join d name ≠ Some Directory →
  ∃ sheet,
    SpriteTest.create_sprite_sheet images width height (os_path_join d name) w
    = (Ok (), World (<[os_path_join d name := File (Png sheet)]> (files w)) (stdout w))
    ∧ mode sheet = RGB
    ∧ size sheet = (len images * width, height)
    ∧ ∀ x y, inside (size sheet) x y = true →
        (∀ (i : nat) im,
           images !! i = Some im →
           inside (size im) (x - Z.of_nat i * width) y = true →
           (∀ (j : nat) im', (i < j)%nat → images !! j = Some im' →
              inside (size im') (x - Z.of_nat j * width) y = false) →
           getpixel sheet (x, y) = getpixel im (x - Z.of_nat i * width, y))
        ∧ ((∀ (j : nat) im', images !! j = Some im' →
              inside (size im') (x - Z.of_nat j * width) y = false) →
           getpixel sheet (x, y) = Ok (255, 255, 255, 255)).
Proof.
  intros Hw Hh Hne _ _ _ Hout. exists (composed_tiles images width height).
  split_and!.
  { apply tiles_sheet_run; [lia|lia|done]. }
  { unfold composed_tiles. by rewrite paste_from_mode. }
  { unfold composed_tiles. by rewrite paste_from_size. }
  intros x y Hin. unfold getpixel. simpl. rewrite Hin. split.
  - intros i im Hi Hcover Hlater. rewrite Hcover. f_equal. unfold composed_tiles.
    rewrite (paste_from_last _ _ 0 _ x y i im); [done..| |].
    + by rewrite Z.add_0_l.
    + intros j im' Hij Hj. rewrite Z.add_0_l. by apply Hlater.
  - intros Hfree. f_equal. unfold composed_tiles.
    rewrite paste_from_untouched; [done|].
    intros j im Hj. rewrite Z.add_0_l. by apply Hfree.
Qed.

(** ** Running the directory tool again *)

Section directory_tool_again.
Import CreateSpriteSheet.

(** Replacing a file leaves the listing of its directory as it was, up to
    the order of the names. *)
Lemma listdir_insert_existing fs d path v0 v names :
  fs !! path = Some (File v0) →
  os_listdir fs d = Ok names →
  ∃ names', os_listdir (<[path := File v]> fs) d = Ok names' ∧ names' ≡ₚ names.
Proof.
  intros Hpath [Hd ->]%os_listdir_Ok. eexists. split.
  - apply os_listdir_Ok. split; [|done].
    rewrite lookup_insert_ne; [done|]. intros E. by rewrite E, Hd in Hpath.
  - rewrite <-(insert_delete_eq fs), map_to_list_insert by apply lookup_delete_eq.
    rewrite <-(map_to_list_delete fs path (File v0)) by done. done.
Qed.

(** The names opened depend on the listing only up to its order. *)
Lemma image_files_Permutation names names' :
  names' ≡ₚ names → image_files names' = image_files names.
Proof.
  intros Hperm. unfold image_files at 2. apply sorted_unique.
  - apply sorted_Sorted.
  - unfold image_files. by rewrite sorted_Permutation, Hperm.
Qed.

(** Property X5.  Once [<d>/sprite_sheet.png] is there, a run over [d]
    replaces it and adds no file: the next run opens the same names, in the
    same order, and loads as many images, each image other than the sheet
    being the one the run before had loaded. *)
Theorem rerun_loads_same_names (d : string) (w : world) (sheet0 first : Image)
    (rest : list Image) :
  files w !! os_path_join d "sprite_sheet.png" = Some (File (Png sheet0)) →
  load_images d w = (Ok (first :: rest), w) →
  0 < width first → 0 < height first →
  ∃ w' images' names names',
    main d w = (Ok (), w')
    ∧ load_images d w' = (Ok images', w')
    ∧ os_listdir (files w) d = Ok names
    ∧ os_listdir (files w') d = Ok names'
    ∧ image_files names' = image_files names
    ∧ length images' = length (first :: rest)
    ∧ ∀ (i : nat) f, image_files names !! i = Some f → f ≠ "sprite_sheet.png" →
        images' !! i = (first :: rest) !! i.
Proof.
  intros Hsheet Hload Hw Hh.
  pose proof Hload as (names & Hnames & Hall)%load_images_Ok.
  set (out := os_path_join d "sprite_sheet.png") in *.
  set (w' := World (<[out := File (Png (composed first rest))]> (files w))
                   (stdout w ++ ["Sprite sheet saved as " +:+ out])).
  destruct (listdir_insert_existing (files w) d out (Png sheet0)
              (Png (composed first rest)) names) as (names' & Hnames' & Hperm);
    [done..|].
  pose proof (image_files_Permutation names names' Hperm) as Hfiles.
  assert (∀ f, f ∈ image_files names → f ≠ "sprite_sheet.png" →
               files w' !! os_path_join d f = files w !! os_path_join d f) as Hkeep.
  { intros f Hf Hne. simpl. apply lookup_insert_ne. intros E. apply Hne.
    apply elem_of_image_files in Hf as [Hf _].
    apply (elem_of_listdir _ _ _ _ Hnames) in Hf. symmetry.
    apply (os_path_join_entry_inj (files w) d); [|done|done].
    repeat split; [done|]. fold out. by rewrite Hsheet. }
  destruct (comprehension_total
              (λ img, Image_open (files w') (os_path_join d img))
              (image_files names')) as [images' Himages'].
  { intros f Hf. rewrite Hfiles in Hf.
    destruct (decide (f = "sprite_sheet.png")) as [->|Hne].
    - exists (composed first rest). apply Image_open_Ok. apply lookup_insert_eq.
    - pose proof Hf as [i Hi]%list_elem_of_lookup.
      destruct (Forall2_lookup_l _ _ _ _ _ Hall Hi) as (im & _ & Him).
      exists im. apply Image_open_Ok. by rewrite Hkeep. }
  pose proof Himages' as Hall'%comprehension_Ok.
  exists w', images', names, names'. split_and!; try done.
  - apply main_saves; [done|split; lia|]. fold out. by rewrite Hsheet.
  - rewrite (load_images_listed d w' names') by done. by rewrite Himages'.
  - apply Forall2_length in Hall, Hall'. by rewrite <-Hall', Hfiles, Hall.
  - intros i f Hi Hne.
    destruct (Forall2_lookup_l _ _ _ _ _ Hall Hi) as (im & -> & Him).
    rewrite <-Hfiles in Hi.
    destruct (Forall2_lookup_l _ _ _ _ _ Hall' Hi) as (im' & -> & Him').
    apply Image_open_Ok in Him'.
    assert (f ∈ image_files names) as Hf.
    { rewrite <-Hfiles. by eapply list_elem_of_lookup_2. }
    rewrite Hkeep in Him' by done. congruence.
Qed.

End directory_tool_again.

(** ** The synthetic tool, continued *)

Lemma find_first {A} (f : A → bool) (l : list A) :
  match find f l with
  | Some x => ∃ before after, l = (before ++ x :: after)%list ∧ f x = true
                              ∧ Forall (λ y, f y = false) before
  | None => Forall (λ y, f y = false) l
  end.
Proof.
  induction l as [|x l IH]; simpl; [constructor|].
  destruct (f x) eqn:Hx.
  - exists [], l. by split_and!.
  - destruct (find f l) as [z|].
    + destruct IH as (before & after & -> & Hz & Hbefore).
      exists (x :: before), after. split_and!; [done|done|by constructor].
    + by constructor.
Qed.

Lemma os_path_exists_false fs path : os_path_exists fs path = false ↔ fs !! path = None.
Proof.
  unfold os_path_exists. rewrite bool_decide_eq_false.
  rewrite <-eq_None_not_Some. done.
Qed.

Lemma os_path_exists_true fs path : os_path_exists fs path = true ↔ is_Some (fs !! path).
Proof. unfold os_path_exists. by rewrite bool_decide_eq_true. Qed.

Section synthetic_tool_more.
Context `{FontLibrary}.
Import SpriteTest.

Lemma get_font_path_outcome (w : world) :
  match get_font_path w with
  | (Ok (Some path), w') =>
      w' = w
      ∧ truthy (Some path) = Some path
      ∧ is_Some (files w !! path)
      ∧ ∃ before after,
          possible_paths = (before ++ path :: after)%list
          ∧ Forall (λ q, files w !! q = None) before
  | (Ok None, w') =>
      w' = World (files w)
                 (stdout w ++ ["None of the specified font files were found. Using the default PIL font."])
      ∧ Forall (λ q, files w !! q = None) possible_paths
  | _ => False
  end.
Proof.
  unfold get_font_path, reading, mbind, prog_bind.
  pose proof (find_first (os_path_exists (files w)) possible_paths) as Hfind.
  destruct (find (os_path_exists (files w)) possible_paths) as [path|] eqn:Hfound;
    simpl.
  - destruct Hfind as (before & after & Hsplit & Hpath & Hbefore).
    split_and!; [done| |by apply os_path_exists_true|].
    + apply find_some in Hfound as [Hin _]. unfold truthy.
      destruct Hin as [<-|[<-|[<-|[<-|[]]]]]; reflexivity.
    + exists before, after. split; [done|].
      eapply Forall_impl; [done|]. intros q. apply os_path_exists_false.
  - split; [done|]. eapply Forall_impl; [done|]. intros q. apply os_path_exists_false.
Qed.

(** Property X6.  [get_font_path] returns the first of its four paths, in
    the order of the list, at which something exists: the paths before it do
    not exist.  It then prints nothing, and the path takes the font branch of
    [create_individual_images] (it is not empty).  It returns [None], after
    printing its message, exactly when none of the four exists.  It never
    raises and leaves the file system as it is. *)
Theorem font_path_is_first_existing (w : world) :
  match get_font_path w with
  | (Ok (Some path), w') =>
      w' = w
      ∧ truthy (Some path) = Some path
      ∧ is_Some (files w !! path)
      ∧ ∃ before after,
          possible_paths = (before ++ path :: after)%list
          ∧ Forall (λ q, files w !! q = None) before
  | (Ok None, w') =>
      w' = World (files w)
                 (stdout w ++ ["None of the specified font files were found. Using the default PIL font."])
      ∧ Forall (λ q, files w !! q = None) possible_paths
  | _ => False
  end.
Proof. apply get_font_path_outcome. Qed.

(** What the loop leaves with. *)
Lemma fit_loop_result path width height text : ∀ fuel font_size font r,
  fit_loop fuel path width height text font_size font = Ok r →
  ∃ k : nat,
    (k < fuel)%nat
    ∧ r.1.1 = font_size - 10 * Z.of_nat k
    ∧ (k = 0%nat → r.1.2 = font)
    ∧ ((0 < k)%nat → truetype path r.1.1 = Ok r.1.2
                     ∧ fits width height (textbbox font text) = false)
    ∧ r.2 = textbbox r.1.2 text
    ∧ fits width height r.2 = true
    ∧ ∀ j : nat, (0 < j < k)%nat →
        ∃ f, truetype path (font_size - 10 * Z.of_nat j) = Ok f
             ∧ fits width height (textbbox f text) = false.
Proof.
  induction fuel as [|fuel IH]; intros font_size font r; [done|].
  rewrite fit_loop_unfold.
  destruct (fits width height (textbbox font text)) eqn:Hfits.
  - intros [= <-]. exists 0%nat. simpl. split_and!; [lia|lia|done|lia|done|done|lia].
  - destruct (truetype path (font_size - 10)) as [font'| |] eqn:Hfont';
      simpl; [|done..].
    intros (k & Hk & Hsize & Hzero & Hpos & Hbox & Hfit & Hbefore)%IH.
    exists (S k). split_and!; [lia|lia|done| |done|done|].
    + intros _. split; [|done]. destruct k as [|k].
      * rewrite Hzero by done. rewrite Hsize. rewrite <-Hfont'. f_equal. lia.
      * apply Hpos. lia.
    + intros j Hj. destruct (decide (j = 1%nat)) as [->|Hj1].
      * exists font'. split; [rewrite <-Hfont'; f_equal; lia|].
        apply Hpos. lia.
      * destruct (Hbefore (j - 1)%nat) as (f & Hf & Hnofit); [lia|].
        exists f. split; [|done]. rewrite <-Hf. f_equal. lia.
Qed.

(** Property X7.  When the size-fit loop of a tile ends, the size it leaves
    with is the initial size minus 10 times the number [k] of its
    decrements, the font is the initial font if [k] is 0 and otherwise the
    one loaded at exactly that size, the box is the one measured with that
    font and it fits the tile, and at every larger size tried the font had
    loaded and the label did not fit: the label is drawn at the largest of
    the sizes initial, initial - 10, ... that fits. *)
Theorem size_fit_result (fuel : nat) (path : string) (width height : Z)
    (text : string) (font_size : Z) (font : Font) (r : Z * Font * (Z * Z * Z * Z)) :
  fit_loop fuel path width height text font_size font = Ok r →
  ∃ k : nat,
    (k < fuel)%nat
    ∧ r.1.1 = font_size - 10 * Z.of_nat k
    ∧ (k = 0%nat → r.1.2 = font)
    ∧ ((0 < k)%nat → truetype path r.1.1 = Ok r.1.2
                     ∧ fits width height (textbbox font text) = false)
    ∧ r.2 = textbbox r.1.2 text
    ∧ r.2.1.2 - r.2.1.1.1 ≤ width ∧ r.2.2 - r.2.1.1.2 ≤ height
    ∧ ∀ j : nat, (0 < j < k)%nat →
        ∃ f, truetype path (font_size - 10 * Z.of_nat j) = Ok f
             ∧ fits width height (textbbox f text) = false.
Proof.
  intros (k & Hk & Hsize & Hzero & Hpos & Hbox & Hfit & Hbefore)%fit_loop_result.
  exists k. unfold fits in Hfit.
  apply andb_true_iff in Hfit as [?%Z.leb_le ?%Z.leb_le]. by split_and!.
Qed.

(** Property X8.  The size-fit loop has no smallest size: with a font that
    loads at every size asked for and in which the label fits the tile at no
    size, the loop is still running after any number of turns, having gone
    on to sizes below zero, and [create_individual_images] returns nothing
    for a count of 1 or more. *)
Theorem size_fit_has_no_floor (path : string) (fnt : Z → Font)
    (count width height : Z) (background_color font_color : Z * Z * Z)
    (initial_font_size : Z) :
  path ≠ "" → 1 ≤ count → 0 ≤ width → 0 ≤ height →
  (∀ s, truetype path s = Ok (fnt s)) →
  (∀ s, fits width height (textbbox (fnt s) (str 1)) = false) →
  ∀ fuel,
    fit_loop fuel path width height (str 1) initial_font_size (fnt initial_font_size)
    = Diverge
    ∧ create_individual_images fuel count width height background_color
                               (Some path) initial_font_size font_color
      = Diverge.
Proof.
  intros Hpath Hcount Hw Hh Hload Hnofit fuel.
  assert (∀ fuel s, fit_loop fuel path width height (str 1) s (fnt s) = Diverge)
    as Hloop.
  { clear fuel. induction fuel as [|fuel IH]; intros s; [done|].
    rewrite fit_loop_unfold, Hnofit, Hload. simpl. apply IH. }
  split; [apply Hloop|].
  unfold create_individual_images. rewrite seqZ_cons by lia. simpl.
  unfold tile, truthy. destruct (String.eqb_spec path "") as [?|_]; [done|].
  rewrite Image_new_ok by done. simpl. rewrite Hload. simpl.
  by rewrite Hloop.
Qed.

(** Property X9.  Without a font path ([None], or the empty string, which is
    false as a condition too), [create_individual_images] returns a list only
    for a count below 1, and the list is empty; for a count of 1 or more it
    raises at its first tile, [ValueError] for a negative width or height
    and [UnboundLocalError] otherwise. *)
Theorem without_font_path (fuel : nat) (count width height : Z)
    (background_color : Z * Z * Z) (font_path : option string)
    (initial_font_size : Z) (font_color : Z * Z * Z) :
  truthy font_path = None →
  create_individual_images fuel count width height background_color font_path
                           initial_font_size font_color
  = if count <? 1 then Ok []
    else if (width <? 0) || (height <? 0) then Raise ValueError
    else Raise UnboundLocalError.
Proof.
  intros Hpath. unfold create_individual_images.
  destruct (Z.ltb_spec count 1) as [Hcount|Hcount].
  - unfold seqZ. by replace (Z.to_nat count) with 0%nat by lia.
  - rewrite seqZ_cons by lia. simpl.
    destruct ((width <? 0) || (height <? 0)) eqn:Hneg.
    + unfold tile, Image_new. simpl. by rewrite Hneg.
    + apply orb_false_iff in Hneg as [?%Z.ltb_ge ?%Z.ltb_ge].
      by rewrite tile_no_font.
Qed.



End synthetic_tool_more.

Section synthetic_runs.
Context `{FontLibrary}.
Import SpriteTest.

Lemma tiles_sheet_outcome images width height output_path wd :
  0 ≤ width → 0 ≤ height →
  create_sprite_sheet images width height output_path wd
  = match files wd !! output_path with
    | Some Directory => (Raise IsADirectoryError, wd)
    | _ => (Ok (), World (<[output_path
                            := File (Png (composed_tiles images width height))]>
                            (files wd)) (stdout wd))
    end.
Proof.
  intros Hw Hh.
  unfold create_sprite_sheet, composed_tiles, mbind, prog_bind, lift.
  rewrite Image_new_ok by (done || pose proof (len_nonneg images); nia).
  unfold writing, save, paste_all, paste_from, enumerate.
  by destruct (files wd !! output_path) as [[?|]|].
Qed.

Lemma main_unfold home fuel w :
  main home fuel w
  = let '(r, w1) := get_font_path w in
    match r with
    | Ok font_path =>
        match create_individual_images fuel 8 276 315 (255, 255, 255) font_path
                                       250 (0, 0, 0) with
        | Ok images =>
            create_sprite_sheet images 276 315
                                (os_path_join home "sprite_sheet.png") w1
        | Raise e => (Raise e, w1)
        | Diverge => (Diverge, w1)
        end
    | Raise e => (Raise e, w1)
    | Diverge => (Diverge, w1)
    end.
Proof. reflexivity. Qed.

(** Property X11.  Whatever the font library and the file system, a run of
    the synthetic tool changes no file other than [<home>/sprite_sheet.png];
    when it does not end normally the file system is as it was (the sheet is
    written only after all eight tiles were drawn); and it prints nothing but,
    at most, the one message of [get_font_path]. *)
Theorem synthetic_run_frame (home : string) (fuel : nat) (w : world) :
  (∀ p, p ≠ os_path_join home "sprite_sheet.png" →
        files (main home fuel w).2 !! p = files w !! p)
  ∧ ((main home fuel w).1 ≠ Ok () → files (main home fuel w).2 = files w)
  ∧ (stdout (main home fuel w).2 = stdout w
     ∨ stdout (main home fuel w).2
       = (stdout w ++ ["None of the specified font files were found. Using the default PIL font."])%list).
Proof.
  pose proof (get_font_path_outcome w) as Hfont.
  rewrite main_unfold.
  destruct (get_font_path w) as [[[path|]| |] w1]; [| |done..].
  - destruct Hfont as (-> & _).
    destruct (create_individual_images _ _ _ _ _ _ _ _) as [images| |];
      simpl; [|by split_and!; auto..].
    rewrite tiles_sheet_outcome by lia.
    destruct (files w !! os_path_join home "sprite_sheet.png") as [[?|]|];
      simpl; (split_and!; [|done|by left]);
      try done; intros p Hp; by rewrite lookup_insert_ne.
  - destruct Hfont as (-> & _).
    destruct (create_individual_images _ _ _ _ _ _ _ _) as [images| |];
      simpl; [|by split_and!; auto..].
    rewrite tiles_sheet_outcome by lia. simpl.
    destruct (files w !! os_path_join home "sprite_sheet.png") as [[?|]|];
      simpl; (split_and!; [|done|by right]);
      try done; intros p Hp; by rewrite lookup_insert_ne.
Qed.

(** Property X12.  When [get_font_path] finds a font file, the font loads
    at the sizes 250, 240, ..., 10, each of the labels 1 to 8 fits the tile at
    size 10, the home directory exists and the output path in it is no
    directory, the run of the synthetic tool ends normally, prints nothing
    and writes at [<home>/sprite_sheet.png] an RGB sheet of 2208 by 315. *)
Theorem synthetic_run_succeeds (home : string) (fuel : nat) (w : world)
    (path : string) (fnt : Z → Font) :
  get_font_path w = (Ok (Some path), w) →
  (∀ s, 10 ≤ s ≤ 250 → truetype path s = Ok (fnt s)) →
  (∀ i, 1 ≤ i ≤ 8 → fits 276 315 (textbbox (fnt 10) (str i)) = true) →
  (25 ≤ fuel)%nat →
  files w !! home = Some Directory →
  files w !! os_path_join home "sprite_sheet.png" ≠ Some Directory →
  ∃ sheet,
    main home fuel w
    = (Ok (), World (<[os_path_join home "sprite_sheet.png" := File (Png sheet)]>
                       (files w)) (stdout w))
    ∧ mode sheet = RGB
    ∧ size sheet = (2208, 315).
Proof.
  intros Hfont Hload Hfit Hfuel _ Hout.
  pose proof (get_font_path_outcome w) as Hfirst.
  rewrite Hfont in Hfirst. destruct Hfirst as (_ & Htruthy & _).
  destruct (tiles_font_ok fuel 276 315 (255, 255, 255) (Some path) path 250
              (0, 0, 0) (seqZ 1 8) [] None) as [images Himages]; [done|lia|lia| |].
  { apply Forall_forall. intros i Hi%elem_of_seqZ.
    destruct (fit_loop_ends path 276 315 (str i) 24
                (λ j, fnt (250 - 10 * Z.of_nat j)) 250 fuel)
      as (k & _ & Hrun & _).
    - intros j Hj. apply Hload. lia.
    - apply Hfit. lia.
    - lia.
    - exists (fnt 250). eexists. split; [apply Hload; lia|]. exact Hrun. }
  assert (length images = 8%nat) as Hlen.
  { pose proof Himages as (new & -> & Hnew)%(tiles_font _ _ _ _ _ path); [|done].
    apply Forall2_length in Hnew. by rewrite length_seqZ in Hnew. }
  exists (composed_tiles images 276 315). split_and!.
  - rewrite main_unfold, Hfont. unfold create_individual_images.
    rewrite Himages. by apply tiles_sheet_run.
  - unfold composed_tiles. by rewrite paste_from_mode.
  - unfold composed_tiles, len. rewrite paste_from_size. simpl.
    by rewrite Hlen.
Qed.

End synthetic_runs.

(** ** Entries the directory tool cannot decode *)

Section directory_tool_failures.
Import CreateSpriteSheet.

Lemma comprehension_first_failure {A B} (f : A → result B) good bad rest e :
  Forall (λ x, ∃ y, f x = Ok y) good →
  f bad = Raise e →
  comprehension f (good ++ bad :: rest) = Raise e.
Proof.
  intros Hgood Hbad. induction Hgood as [|x good [y Hx] _ IH]; simpl.
  - by rewrite Hbad.
  - by rewrite Hx, IH.
Qed.

(** Property X13.  Every entry of the directory whose name ends in [.png]
    has to be a file that decodes: the first such name, in sorted order, that
    is a subdirectory or a file that does not decode stops the run with
    [IsADirectoryError], respectively [UnidentifiedImageError]; the images
    before it were opened, the entries after it are not looked at, and
    nothing is written or printed. *)
Theorem undecodable_entry_stops_run (d : string) (w : world)
    (names good rest : list string) (bad : string) (e : exn) :
  os_listdir (files w) d = Ok names →
  image_files names = (good ++ bad :: rest)%list →
  Forall (λ f, ∃ im, files w !! os_path_join d f = Some (File (Png im))) good →
  (files w !! os_path_join d bad = Some Directory ∧ e = IsADirectoryError)
  ∨ (files w !! os_path_join d bad = Some (File NotAnImage)
     ∧ e = UnidentifiedImageError) →
  load_images d w = (Raise e, w) ∧ main d w = (Raise e, w).
Proof.
  intros Hnames Hsplit Hgood Hbad.
  assert (load_images d w = (Raise e, w)) as Hload.
  { rewrite (load_images_listed d w names), Hsplit by done. f_equal.
    apply comprehension_first_failure.
    - eapply Forall_impl; [done|]. intros f [im Him]. exists im.
      by apply Image_open_Ok.
    - unfold Image_open. by destruct Hbad as [[-> ->]|[-> ->]]. }
  split; [done|]. unfold main, mbind, prog_bind. by rewrite Hload.
Qed.

End directory_tool_failures.

(** * Concrete runs *)

Example load_images_example :
  CreateSpriteSheet.load_images "imgs" example_world
  = (Ok [tile_a; tile_b], example_world).
Proof. vm_compute. reflexivity. Qed.

Example endswith_case_sensitive :
  endswith "C.PNG" ".png" = false ∧ endswith "a.png" ".png" = true
  ∧ endswith "a.png.txt" ".png" = false.
Proof. by vm_compute. Qed.

Example sorted_is_by_code_point :
  sorted ["b.png"; "a.png"; "B.png"; "10.png"; "2.png"]
  = ["10.png"; "2.png"; "B.png"; "a.png"; "b.png"].
Proof. reflexivity. Qed.

Example str_examples : str 1 = "1" ∧ str 8 = "8" ∧ str 10 = "10".
Proof. by vm_compute. Qed.

Lemma sheet_dimensions_witness :
  ∃ sheet1 sheet2,
    CreateSpriteSheet.create_sprite_sheet [tile_a; tile_b]
      (os_path_join "imgs" "sprite_sheet.png") example_world
    = (Ok (), World (<[os_path_join "imgs" "sprite_sheet.png" := File (Png sheet1)]>
                       example_files) [])
    ∧ SpriteTest.create_sprite_sheet [tile_a; tile_b] 2 3
        (os_path_join "imgs" "sprite_sheet.png") example_world
      = (Ok (), World (<[os_path_join "imgs" "sprite_sheet.png" := File (Png sheet2)]>
                         example_files) [])
    ∧ size sheet1 = (len [tile_a; tile_b] * 2, 3)
    ∧ size sheet2 = (len [tile_a; tile_b] * 2, 3).
Proof.
  apply (sheet_dimensions [tile_a; tile_b] 2 3 "imgs" "sprite_sheet.png" example_world).
  - done.
  - repeat constructor.
  - lia.
  - lia.
  - vm_compute. reflexivity.
  - vm_compute. reflexivity.
  - vm_compute. discriminate.
Defined.

Lemma slices_are_inputs_witness :
  (∃ sheet1,
     CreateSpriteSheet.create_sprite_sheet [tile_a; tile_b]
       (os_path_join "imgs" "sprite_sheet.png") example_world
     = (Ok (), World (<[os_path_join "imgs" "sprite_sheet.png" := File (Png sheet1)]>
                        example_files) [])
     ∧ ∀ (i : nat) (im : Image),
         [tile_a; tile_b] !! i = Some im →
         pixel_identical (crop sheet1 (Z.of_nat i * 2, 0, (Z.of_nat i + 1) * 2, 3)) im)
  ∧ (∃ sheet2,
       SpriteTest.create_sprite_sheet [tile_a; tile_b] 2 3
         (os_path_join "imgs" "sprite_sheet.png") example_world
       = (Ok (), World (<[os_path_join "imgs" "sprite_sheet.png" := File (Png sheet2)]>
                          example_files) [])
       ∧ ∀ (i : nat) (im : Image),
           [tile_a; tile_b] !! i = Some im →
           pixel_identical (crop sheet2 (Z.of_nat i * 2, 0, (Z.of_nat i + 1) * 2, 3)) im).
Proof.
  destruct (slices_are_inputs [tile_a; tile_b] 2 3 "imgs" "sprite_sheet.png"
                              example_world) as [Hsheet1 Hsheet2].
  - done.
  - repeat constructor.
  - lia.
  - lia.
  - vm_compute. reflexivity.
  - vm_compute. reflexivity.
  - vm_compute. discriminate.
  - split.
    + apply Hsheet1. repeat constructor.
    + apply Hsheet2. repeat constructor; right; intros x y _; reflexivity.
Defined.

Lemma load_images_sorted_png_witness :
  ∃ image_files : list string,
    (∀ f, f ∈ image_files ↔ is_entry example_files "imgs" f ∧ endswith f ".png" = true)
    ∧ NoDup image_files
    ∧ Sorted String.le image_files
    ∧ (CreateSpriteSheet.load_images "imgs" example_world).2 = example_world
    ∧ ∀ images,
        CreateSpriteSheet.load_images "imgs" example_world = (Ok images, example_world)
        ↔ Forall2 (λ f im, example_files !! os_path_join "imgs" f = Some (File (Png im)))
                  image_files images.
Proof.
  apply (load_images_sorted_png "imgs" example_world).
  vm_compute. reflexivity.
Defined.

Lemma no_png_no_sheet_witness :
  CreateSpriteSheet.main "docs" example_world
  = (Ok (), World example_files ["No PNG files found in the directory."]).
Proof.
  apply (no_png_no_sheet "docs" example_world ["scan.PNG"; "notes.txt"]).
  - vm_compute. reflexivity.
  - repeat constructor.
Defined.

Lemma output_feeds_next_run_witness :
  entry_name "imgs" (os_path_join "imgs" "sprite_sheet.png") = Some "sprite_sheet.png"
  ∧ endswith (os_path_join "imgs" "sprite_sheet.png") ".png" = true
  ∧ (∀ w0 sheet0 images0,
       files w0 !! os_path_join "imgs" "sprite_sheet.png" = Some (File (Png sheet0)) →
       CreateSpriteSheet.load_images "imgs" w0 = (Ok images0, w0) →
       sheet0 ∈ images0)
  ∧ ∃ w' sheet images',
      CreateSpriteSheet.main "imgs" example_world = (Ok (), w')
      ∧ files w' !! os_path_join "imgs" "sprite_sheet.png" = Some (File (Png sheet))
      ∧ CreateSpriteSheet.load_images "imgs" w' = (Ok images', w')
      ∧ sheet ∈ images'
      ∧ length images' = S (length [tile_a; tile_b]).
Proof.
  apply (output_feeds_next_run "imgs" example_world tile_a [tile_b]).
  - vm_compute. reflexivity.
  - unfold well_formed, width, height. simpl. lia.
  - vm_compute. reflexivity.
Defined.

Lemma first_image_sets_layout_witness :
  ∃ sheet sheet',
    CreateSpriteSheet.create_sprite_sheet [tile_a; tile_b]
      (os_path_join "imgs" "sprite_sheet.png") example_world
    = (Ok (), World (<[os_path_join "imgs" "sprite_sheet.png" := File (Png sheet)]>
                       example_files) [])
    ∧ CreateSpriteSheet.create_sprite_sheet [tile_a; tile_wide]
        (os_path_join "imgs" "sprite_sheet.png") example_world
      = (Ok (), World (<[os_path_join "imgs" "sprite_sheet.png" := File (Png sheet')]>
                         example_files) [])
    ∧ size sheet = (width tile_a * len [tile_a; tile_b], height tile_a)
    ∧ size sheet' = size sheet
    ∧ sheet
      = fold_left (λ sheet '(image, box), paste sheet image box)
          (zip [tile_a; tile_b] (paste_boxes [tile_a; tile_b]))
          (mkImage RGBA (width tile_a * len [tile_a; tile_b], height tile_a)
                   (λ _ _, transparent))
    ∧ paste_boxes [tile_a; tile_b]
      = (λ k : nat, (Z.of_nat k * width tile_a, 0)) <$> seq 0 (length [tile_a; tile_b])
    ∧ paste_boxes [tile_a; tile_wide] = paste_boxes [tile_a; tile_b].
Proof.
  apply (first_image_sets_layout tile_a [tile_b] [tile_wide] "imgs" "sprite_sheet.png"
                                 example_world).
  - unfold width. simpl. lia.
  - unfold height. simpl. lia.
  - repeat constructor.
  - vm_compute. reflexivity.
  - vm_compute. reflexivity.
  - vm_compute. discriminate.
  - reflexivity.
Defined.

Example main_with_font :
  ∃ sheet,
    SpriteTest.main (H := model_fonts) "/home/user" 25 font_world
    = (Ok (), World (<["/home/user/sprite_sheet.png" := File (Png sheet)]>
                       (files font_world)) [])
    ∧ size sheet = (2208, 315).
Proof. eexists. split; vm_compute; reflexivity. Qed.

Lemma default_font_is_fatal_witness :
  SpriteTest.main (H := model_fonts) "/home/user" 25 example_world
  = (Raise UnboundLocalError,
     World example_files
           ["None of the specified font files were found. Using the default PIL font."]).
Proof.
  apply (default_font_is_fatal (H := model_fonts) "/home/user" 25 example_world).
  repeat constructor.
Defined.

Lemma size_fit_terminates_witness :
  ∃ k : nat, (k ≤ 24)%nat
    ∧ SpriteTest.fit_loop (H := model_fonts) 25 "/Library/Fonts/Arial.ttf" 276 315
                          "8" 250 250
      = Ok (250 - 10 * Z.of_nat k, 250 - 10 * Z.of_nat k,
            textbbox (FontLibrary := model_fonts) (250 - 10 * Z.of_nat k) "8")
    ∧ (let text_bbox :=
         textbbox (FontLibrary := model_fonts) (250 - 10 * Z.of_nat k) "8" in
       text_bbox.1.2 - text_bbox.1.1.1 ≤ 276 ∧ text_bbox.2 - text_bbox.1.1.2 ≤ 315)
    ∧ ∀ j : nat, (j < k)%nat →
        fits 276 315 (textbbox (FontLibrary := model_fonts) (250 - 10 * Z.of_nat j) "8")
        = false.
Proof.
  apply (size_fit_terminates (H := model_fonts) "/Library/Fonts/Arial.ttf"
                             (λ s, s) "8" 25).
  - intros s Hs. simpl. destruct (Z.ltb_spec 0 s); [done|lia].
  - vm_compute. reflexivity.
  - lia.
Defined.

Lemma tiles_produced_witness :
  ∃ images,
    SpriteTest.create_individual_images (H := model_fonts) 25 8 276 315
      (255, 255, 255) (Some "/Library/Fonts/Arial.ttf") 250 (0, 0, 0) = Ok images
    ∧ length images = Z.to_nat 8
    ∧ ∀ i, 1 ≤ i ≤ 8 →
        ∃ font xy,
          images !! Z.to_nat (i - 1)
          = Some (draw_text (FontLibrary := model_fonts)
                    (mkImage RGB (276, 315) (λ _ _, rgb (255, 255, 255)))
                    xy (str i) (rgb (0, 0, 0)) font).
Proof.
  apply (tiles_produced (H := model_fonts) 25 8 276 315 (255, 255, 255)
           (Some "/Library/Fonts/Arial.ttf") "/Library/Fonts/Arial.ttf" 250 (0, 0, 0)).
  - reflexivity.
  - lia.
  - lia.
  - intros i Hi.
    assert (i = 1 ∨ i = 2 ∨ i = 3 ∨ i = 4 ∨ i = 5 ∨ i = 6 ∨ i = 7 ∨ i = 8)
      as Hcases by lia.
    exists 250, (230, 230, (0, 46, 276, 230)). split; [reflexivity|].
    destruct Hcases as [->|[->|[->|[->|[->|[->|[->| ->]]]]]]]; vm_compute; reflexivity.
Defined.

Lemma label_position_witness :
  ∃ images,
    SpriteTest.create_individual_images (H := model_fonts) 25 2 276 315
      (255, 255, 255) (Some "/Library/Fonts/Arial.ttf") 250 (0, 0, 0) = Ok images
    ∧ ∀ i, 1 ≤ i ≤ 2 →
        ∃ canvas font x0 y0 x1 y1,
          textbbox (FontLibrary := model_fonts) font (str i) = (x0, y0, x1, y1)
          ∧ images !! Z.to_nat (i - 1)
            = Some (draw_text (FontLibrary := model_fonts) canvas
                      ((276 - (x1 - x0)) `div` 2 - x0, (315 - (y1 - y0)) `div` 2 - y0)
                      (str i) (rgb (0, 0, 0)) font).
Proof.
  eexists. split; [vm_compute; reflexivity|].
  apply (label_position (H := model_fonts) 25 2 276 315 (255, 255, 255)
           (Some "/Library/Fonts/Arial.ttf") 250 (0, 0, 0)).
  vm_compute. reflexivity.
Defined.

(** Claim C7 as stated fails: with a font path given, no image is returned
    when the label fits the tile at no size the loop tries (here a tile of 4
    by 4: the sizes 250 down to 10 are too big, and the font does not load
    at size 0), when the font file does not load, or when the width is
    negative. *)
Lemma tiles_not_always_produced :
  (¬ ∃ fuel images,
       SpriteTest.create_individual_images (H := model_fonts) fuel 1 4 4
         (255, 255, 255) (Some "/Library/Fonts/Arial.ttf") 250 (0, 0, 0) = Ok images)
  ∧ SpriteTest.create_individual_images (H := model_fonts) 25 1 276 315
      (255, 255, 255) (Some "/home/user/notes.txt") 250 (0, 0, 0) = Raise OSError
  ∧ SpriteTest.create_individual_images (H := model_fonts) 25 1 (-276) 315
      (255, 255, 255) (Some "/Library/Fonts/Arial.ttf") 250 (0, 0, 0) = Raise ValueError.
Proof.
  split_and!; [|reflexivity..].
  intros (fuel & images & Hrun).
  do 25 (destruct fuel as [|fuel]; [by vm_compute in Hrun|]).
  by vm_compute in Hrun.
Qed.

(** ** Concrete runs for the further properties *)

Example overlapping_tiles_example :
  ∃ sheet,
    CreateSpriteSheet.create_sprite_sheet [tile_a; tile_wide; tile_b]
                                          "imgs/sprite_sheet.png" example_world
    = (Ok (), World (<["imgs/sprite_sheet.png" := File (Png sheet)]> example_files) [])
    ∧ size sheet = (6, 3)
    ∧ getpixel sheet (1, 2) = Ok (10, 1, 2, 255)
    ∧ getpixel sheet (3, 0) = Ok (30, 1, 0, 255)
    ∧ getpixel sheet (4, 0) = Ok (20, 0, 0, 255)
    ∧ getpixel sheet (6, 0) = Raise IndexError.
Proof. eexists. split_and!; vm_compute; reflexivity. Qed.


Lemma directory_sheet_pixels_witness :
  ∃ sheet,
    CreateSpriteSheet.create_sprite_sheet [tile_a; tile_wide; tile_b]
      (os_path_join "imgs" "sprite_sheet.png") example_world
    = (Ok (), World (<[os_path_join "imgs" "sprite_sheet.png" := File (Png sheet)]>
                       example_files) [])
    ∧ ∀ x y, inside (size sheet) x y = true →
        (∀ (i : nat) im,
           [tile_a; tile_wide; tile_b] !! i = Some im →
           inside (size im) (x - Z.of_nat i * width tile_a) y = true →
           (∀ (j : nat) im', (i < j)%nat → [tile_a; tile_wide; tile_b] !! j = Some im' →
              inside (size im') (x - Z.of_nat j * width tile_a) y = false) →
           getpixel sheet (x, y) = getpixel im (x - Z.of_nat i * width tile_a, y))
        ∧ ((∀ (j : nat) im', [tile_a; tile_wide; tile_b] !! j = Some im' →
              inside (size im') (x - Z.of_nat j * width tile_a) y = false) →
           getpixel sheet (x, y) = Ok transparent).
Proof.
  apply (directory_sheet_pixels tile_a [tile_wide; tile_b] "imgs" "sprite_sheet.png"
                                example_world).
  - unfold width. simpl. lia.
  - unfold height. simpl. lia.
  - repeat constructor.
  - vm_compute. reflexivity.
  - vm_compute. reflexivity.
  - vm_compute. discriminate.
Defined.

Lemma tiles_sheet_pixels_witness :
  ∃ sheet,
    SpriteTest.create_sprite_sheet [tile_a; tile_wide] 2 3
      (os_path_join "imgs" "sprite_sheet.png") example_world
    = (Ok (), World (<[os_path_join "imgs" "sprite_sheet.png" := File (Png sheet)]>
                       example_files) [])
    ∧ mode sheet = RGB
    ∧ size sheet = (len [tile_a; tile_wide] * 2, 3)
    ∧ ∀ x y, inside (size sheet) x y = true →
        (∀ (i : nat) im,
           [tile_a; tile_wide] !! i = Some im →
           inside (size im) (x - Z.of_nat i * 2) y = true →
           (∀ (j : nat) im', (i < j)%nat → [tile_a; tile_wide] !! j = Some im' →
              inside (size im') (x - Z.of_nat j * 2) y = false) →
           getpixel sheet (x, y) = getpixel im (x - Z.of_nat i * 2, y))
        ∧ ((∀ (j : nat) im', [tile_a; tile_wide] !! j = Some im' →
              inside (size im') (x - Z.of_nat j * 2) y = false) →
           getpixel sheet (x, y) = Ok (255, 255, 255, 255)).
Proof.
  apply (tiles_sheet_pixels [tile_a; tile_wide] 2 3 "imgs" "sprite_sheet.png"
                            example_world).
  - lia.
  - lia.
  - done.
  - repeat constructor; right; intros x y _; reflexivity.
  - vm_compute. reflexivity.
  - vm_compute. reflexivity.
  - vm_compute. discriminate.
Defined.

Lemma rerun_loads_same_names_witness :
  ∃ w' images' names names',
    CreateSpriteSheet.main "imgs" rerun_world = (Ok (), w')
    ∧ CreateSpriteSheet.load_images "imgs" w' = (Ok images', w')
    ∧ os_listdir (files rerun_world) "imgs" = Ok names
    ∧ os_listdir (files w') "imgs" = Ok names'
    ∧ image_files names' = image_files names
    ∧ length images' = length [tile_a; tile_b; tile_wide]
    ∧ ∀ (i : nat) f, image_files names !! i = Some f → f ≠ "sprite_sheet.png" →
        images' !! i = [tile_a; tile_b; tile_wide] !! i.
Proof.
  apply (rerun_loads_same_names "imgs" rerun_world tile_wide tile_a [tile_b; tile_wide]).
  - vm_compute. reflexivity.
  - vm_compute. reflexivity.
  - unfold width. simpl. lia.
  - unfold height. simpl. lia.
Defined.

Lemma size_fit_result_witness :
  ∃ k : nat,
    (k < 25)%nat
    ∧ 230 = 250 - 10 * Z.of_nat k
    ∧ (k = 0%nat → 230 = 250)
    ∧ ((0 < k)%nat →
       truetype (FontLibrary := model_fonts) "/Library/Fonts/Arial.ttf" 230 = Ok 230
       ∧ fits 276 315 (textbbox (FontLibrary := model_fonts) 250 "8") = false)
    ∧ (0, 46, 276, 230) = textbbox (FontLibrary := model_fonts) 230 "8"
    ∧ 276 - 0 ≤ 276 ∧ 230 - 46 ≤ 315
    ∧ ∀ j : nat, (0 < j < k)%nat →
        ∃ f, truetype (FontLibrary := model_fonts) "/Library/Fonts/Arial.ttf"
                      (250 - 10 * Z.of_nat j) = Ok f
             ∧ fits 276 315 (textbbox (FontLibrary := model_fonts) f "8") = false.
Proof.
  apply (size_fit_result (H := model_fonts) 25 "/Library/Fonts/Arial.ttf" 276 315
                         "8" 250 250 (230, 230, (0, 46, 276, 230))).
  vm_compute. reflexivity.
Defined.

Lemma size_fit_has_no_floor_witness :
  SpriteTest.fit_loop (H := fixed_fonts) 1000 "/Library/Fonts/Arial.ttf" 4 4
                      (str 1) 250 250
  = Diverge
  ∧ SpriteTest.create_individual_images (H := fixed_fonts) 1000 8 4 4
      (255, 255, 255) (Some "/Library/Fonts/Arial.ttf") 250 (0, 0, 0)
    = Diverge.
Proof.
  apply (size_fit_has_no_floor (H := fixed_fonts) "/Library/Fonts/Arial.ttf"
                               (λ s, s) 8 4 4 (255, 255, 255) (0, 0, 0) 250).
  - done.
  - lia.
  - lia.
  - lia.
  - reflexivity.
  - reflexivity.
Defined.

Lemma without_font_path_witness :
  SpriteTest.create_individual_images (H := model_fonts) 25 8 276 315
    (255, 255, 255) (Some "") 250 (0, 0, 0)
  = Raise UnboundLocalError.
Proof.
  apply (without_font_path (H := model_fonts) 25 8 276 315 (255, 255, 255)
                           (Some "") 250 (0, 0, 0)).
  reflexivity.
Defined.


Lemma synthetic_run_succeeds_witness :
  ∃ sheet,
    SpriteTest.main (H := model_fonts) "/home/user" 25 font_world
    = (Ok (), World (<[os_path_join "/home/user" "sprite_sheet.png" := File (Png sheet)]>
                       (files font_world)) [])
    ∧ mode sheet = RGB
    ∧ size sheet = (2208, 315).
Proof.
  apply (synthetic_run_succeeds (H := model_fonts) "/home/user" 25 font_world
           "/usr/share/fonts/truetype/dejavu/DejaVuSans-Bold.ttf" (λ s, s)).
  - vm_compute. reflexivity.
  - intros s Hs. simpl. destruct (Z.ltb_spec 0 s); [done|lia].
  - intros i Hi.
    assert (i = 1 ∨ i = 2 ∨ i = 3 ∨ i = 4 ∨ i = 5 ∨ i = 6 ∨ i = 7 ∨ i = 8)
      as [->|[->|[->|[->|[->|[->|[->| ->]]]]]]] by lia; reflexivity.
  - lia.
  - vm_compute. reflexivity.
  - vm_compute. discriminate.
Defined.

Lemma undecodable_entry_stops_run_witness :
  CreateSpriteSheet.load_images "pics" broken_world
  = (Raise UnidentifiedImageError, broken_world)
  ∧ CreateSpriteSheet.main "pics" broken_world
    = (Raise UnidentifiedImageError, broken_world).
Proof.
  apply (undecodable_entry_stops_run "pics" broken_world ["c.png"; "a.png"; "b.png"]
           ["a.png"] ["c.png"] "b.png" UnidentifiedImageError).
  - vm_compute. reflexivity.
  - vm_compute. reflexivity.
  - repeat constructor. exists tile_a. vm_compute. reflexivity.
  - right. split; [vm_compute; reflexivity|reflexivity].
Defined.
